(** * lf-supabase: the e-mail OTP flow of the edge functions

  A shallow embedding of the two edge functions that implement the one-time
  passcode life cycle, the handler that issues a code (the [serve] callback of
  the send function, table [otp_codes]) and [verify-otp/index.ts], together
  with the [otp_codes] table of the migration and with [signin/index.ts].

  Conventions of the embedding.
  - A timestamp ([TIMESTAMPTZ] column, ISO string of a JavaScript [Date]) is
    the number of milliseconds since the epoch, a [Z].
  - The fields of a request are strings.  A field that is absent, [null] or
    the empty string is the empty string: these are the falsy values such a
    field can take, and the handlers only test fields with [!field].
  - The data base, the auth admin API and the mail API are remote services.
    What a call answers that the handler cannot compute (an error, the list
    of users, a session) is read from a record of outcomes, one field per
    call site; the table itself is modelled, so that the rows a query returns
    are computed from the rows present.  A data-base request that fails
    answers with an error, as the handlers expect when they read [error], and
    leaves the table as it was.
  - Rows with the same [expires_at] are sorted in storage order.
  - [Math.random()] is a double in [0, 1) that is a multiple of 2^-53, given
    by its numerator over 2^53; the product and the sum that make the code
    are computed as the double arithmetic of JavaScript computes them,
    rounding to the nearest double, ties to even.  [OTP_EXPIRATION_TIME] is a
    whole number of minutes or [NaN].
  - Every remote call is recorded in a trace. *)

From Stdlib Require Import ZArith List String Ascii Bool Lia.
From Stdlib Require Import DecimalString.
Import ListNotations.

Open Scope string_scope.
Open Scope list_scope.
Open Scope Z_scope.

(** ** The table [otp_codes] and the query builder *)

Module Db.

(** One row of [otp_codes]:
    [id BIGSERIAL], [email], [code_hash], [purpose] are [TEXT NOT NULL],
    [expires_at], [created_at] are [TIMESTAMPTZ NOT NULL]. *)
Record OtpRecord : Type := mkOtp {
  id : Z;
  email : string;
  code_hash : string;
  purpose : string;
  expires_at : Z;
  created_at : Z
}.

(** The table: its rows in storage order and the next value of the
    [BIGSERIAL] sequence. *)
Record Table : Type := mkTable {
  rows : list OtpRecord;
  next_id : Z
}.

Definition Filter : Type := OtpRecord -> bool.

(** [.eq("email", e)], [.eq("purpose", p)] *)
Definition eq_email (e : string) : Filter := fun r => String.eqb (email r) e.
Definition eq_purpose (p : string) : Filter := fun r => String.eqb (purpose r) p.
(** [.lt("expires_at", t)], [.gte("expires_at", t)], [.gt("expires_at", t)] *)
Definition lt_expires_at (t : Z) : Filter := fun r => expires_at r <? t.
Definition gte_expires_at (t : Z) : Filter := fun r => t <=? expires_at r.
Definition gt_expires_at (t : Z) : Filter := fun r => t <? expires_at r.

(** A chain of filters is their conjunction. *)
Fixpoint all_of (fs : list Filter) : Filter :=
  fun r =>
    match fs with
    | [] => true
    | f :: fs' => f r && all_of fs' r
    end.

(** [.select(...)] with filters: the rows that pass, in storage order. *)
Definition select (fs : list Filter) (t : Table) : list OtpRecord :=
  filter (all_of fs) (rows t).

(** [.delete()] with filters: the rows that pass are removed. *)
Definition delete (fs : list Filter) (t : Table) : Table :=
  mkTable (filter (fun r => negb (all_of fs r)) (rows t)) (next_id t).

(** [.insert({ email, code_hash, purpose, expires_at, created_at })]:
    the sequence gives the id. *)
Definition insert (e h p : string) (exp cre : Z) (t : Table) : Table :=
  mkTable (rows t ++ [mkOtp (next_id t) e h p exp cre])%list (next_id t + 1).

(** [.order("expires_at", { ascending: false })]: a stable sort, greatest
    [expires_at] first; rows with the same [expires_at] stay in storage
    order (the data base leaves their order open). *)
Fixpoint insert_desc (r : OtpRecord) (l : list OtpRecord) : list OtpRecord :=
  match l with
  | [] => [r]
  | x :: l' =>
      if expires_at x <=? expires_at r then r :: x :: l'
      else x :: insert_desc r l'
  end.

Fixpoint order_desc (l : list OtpRecord) : list OtpRecord :=
  match l with
  | [] => []
  | r :: l' => insert_desc r (order_desc l')
  end.

(** [.limit(n)] *)
Definition limit (n : nat) (l : list OtpRecord) : list OtpRecord := firstn n l.

(** [.single()]: the one row, or an error when the result does not hold
    exactly one row ([data] is then [null]). *)
Definition single (l : list OtpRecord) : option OtpRecord :=
  match l with
  | [r] => Some r
  | _ => None
  end.

End Db.

(** ** [hashString]: SHA-256 of the UTF-8 bytes, in hexadecimal *)

Module Crypto.

(** A byte is a [Z] in [0, 256); a string is already its UTF-8 bytes. *)
Definition encode (s : string) : list Z :=
  map (fun c => Z.of_N (N_of_ascii c)) (list_ascii_of_string s).

(** *** [crypto.subtle.digest("SHA-256", data)] (FIPS 180-4) *)

Definition w32 (x : Z) : Z := x mod 2 ^ 32.
Definition add32 (x y : Z) : Z := w32 (x + y).
Definition rotr (n x : Z) : Z := Z.lor (Z.shiftr x n) (w32 (Z.shiftl x (32 - n))).
Definition xor3 (x y z : Z) : Z := Z.lxor (Z.lxor x y) z.

Definition Ch (x y z : Z) : Z :=
  Z.lxor (Z.land x y) (Z.land (Z.lxor x (2 ^ 32 - 1)) z).
Definition Maj (x y z : Z) : Z :=
  xor3 (Z.land x y) (Z.land x z) (Z.land y z).
Definition bsig0 (x : Z) : Z := xor3 (rotr 2 x) (rotr 13 x) (rotr 22 x).
Definition bsig1 (x : Z) : Z := xor3 (rotr 6 x) (rotr 11 x) (rotr 25 x).
Definition ssig0 (x : Z) : Z := xor3 (rotr 7 x) (rotr 18 x) (Z.shiftr x 3).
Definition ssig1 (x : Z) : Z := xor3 (rotr 17 x) (rotr 19 x) (Z.shiftr x 10).

(** The constants are the fractional parts of the square and cube roots of
    the first primes, 32 bits each. *)
Definition is_prime (n : Z) : bool :=
  forallb (fun d => negb (n mod Z.of_nat d =? 0)) (seq 2 (Z.to_nat n - 2)).

Definition first_primes : list Z :=
  Eval vm_compute in firstn 64 (filter is_prime (map Z.of_nat (seq 2 400))).

Fixpoint cube_root_from (n : Z) (bit : nat) (r : Z) : Z :=
  match bit with
  | O => r
  | S bit' =>
      let c := r + 2 ^ Z.of_nat bit' in
      cube_root_from n bit' (if c * c * c <=? n then c else r)
  end.

Definition round_constants : list Z :=
  Eval vm_compute in
    map (fun p => w32 (cube_root_from (p * 2 ^ 96) 40 0)) first_primes.

Definition initial_hash : list Z :=
  Eval vm_compute in
    map (fun p => w32 (Z.sqrt (p * 2 ^ 64))) (firstn 8 first_primes).

(** Padding: a one bit, zeros, and the length in bits on 64 bits. *)
Fixpoint big_endian (width : nat) (x : Z) : list Z :=
  match width with
  | O => []
  | S w => (Z.shiftr x (8 * Z.of_nat w)) mod 256 :: big_endian w x
  end.

Definition pad (msg : list Z) : list Z :=
  let len := Z.of_nat (List.length msg) in
  let zeros := Z.to_nat ((55 - len) mod 64) in
  (msg ++ [128] ++ repeat 0 zeros ++ big_endian 8 (8 * len))%list.

Fixpoint words (fuel : nat) (bytes : list Z) : list Z :=
  match fuel, bytes with
  | S fuel', a :: b :: c :: d :: rest =>
      (((a * 256 + b) * 256 + c) * 256 + d) :: words fuel' rest
  | _, _ => []
  end.

(** The message schedule, latest word first while it is built. *)
Fixpoint extend (n : nat) (rev_w : list Z) : list Z :=
  match n with
  | O => rev_w
  | S n' =>
      let w := add32 (add32 (ssig1 (nth 1 rev_w 0)) (nth 6 rev_w 0))
                     (add32 (ssig0 (nth 14 rev_w 0)) (nth 15 rev_w 0)) in
      extend n' (w :: rev_w)
  end.

Definition schedule (block : list Z) : list Z := rev (extend 48 (rev block)).

Definition round (st : list Z) (kw : Z * Z) : list Z :=
  match st with
  | [a; b; c; d; e; f; g; h] =>
      let t1 := add32 (add32 (add32 h (bsig1 e)) (add32 (Ch e f g) (fst kw))) (snd kw) in
      let t2 := add32 (bsig0 a) (Maj a b c) in
      [add32 t1 t2; a; b; c; add32 d t1; e; f; g]
  | _ => st
  end.

Definition compress (h : list Z) (block : list Z) : list Z :=
  let st := fold_left round (combine round_constants (schedule block)) h in
  map (fun p => add32 (fst p) (snd p)) (combine h st).

Fixpoint blocks (fuel : nat) (ws : list Z) : list (list Z) :=
  match fuel, ws with
  | _, [] => []
  | O, _ => []
  | S fuel', _ => firstn 16 ws :: blocks fuel' (skipn 16 ws)
  end.

Definition sha256 (msg : list Z) : list Z :=
  let bytes := pad msg in
  let ws := words (List.length bytes) bytes in
  let h := fold_left compress (blocks (List.length ws) ws) initial_hash in
  List.concat (map (big_endian 4) h).

(** *** The hexadecimal rendering of [hashString] *)

Definition hex_digit (d : Z) : string :=
  String.substring (Z.to_nat d) 1 "0123456789abcdef".

(** [b.toString(16)] for a byte *)
Definition toString16 (b : Z) : string :=
  if b <? 16 then hex_digit b
  else String.append (hex_digit (b / 16)) (hex_digit (b mod 16)).

(** [s.padStart(2, '0')] *)
Definition padStart2 (s : string) : string :=
  match String.length s with
  | O => "00"
  | S O => String.append "0" s
  | _ => s
  end.

(** [hashString(otp)]: the function both edge functions define, word for
    word the same. *)
Definition hashString (otp : string) : string :=
  let data := encode otp in
  let hashArray := sha256 data in
  String.concat "" (map (fun b => padStart2 (toString16 b)) hashArray).

End Crypto.

(** ** Requests, responses, remote calls *)

Module Http.

(** The JSON body of a request as the handlers destructure it. *)
Record Payload : Type := mkPayload {
  email : string;
  purpose : string;
  code : string;
  password : string
}.

(** [json] is [None] when the body does not parse: [req.json()] throws. *)
Record Request : Type := mkRequest {
  method : string;
  json : option Payload
}.

Definition Session : Type := string.

Inductive Body : Type :=
| Text (s : string)                       (* a plain body *)
| ErrorJson (error : string)              (* { error } *)
| SessionJson (session : Session)         (* { session } *)
| MessageJson (message data : string).    (* { message, data } *)

Record Response : Type := mkResponse {
  status : Z;
  body : Body
}.

Definition error_response (st : Z) (msg : string) : Response :=
  mkResponse st (ErrorJson msg).

(** [!field] *)
Definition falsy (s : string) : bool := String.eqb s "".

End Http.

Module Remote.
Import Http.

Record User : Type := mkUser {
  user_id : string;
  user_email : string
}.

(** What a call of the auth API answers: [data] or [error.message]. *)
Inductive Answer (A : Type) : Type :=
| Data (a : A)
| Failure (message : string).
Arguments Data {A} a.
Arguments Failure {A} message.

(** What the mail API does with a request: a response with [res.ok] and a
    JSON body [data]; a response without [res.ok] and with a JSON body; a
    response, [res.ok] or not, whose body is not JSON, so that
    [await res.json()] throws; or no response at all ([fetch] rejects). *)
Inductive Delivery : Type :=
| Accepted (data : string)
| Refused
| Unreadable
| Unreachable.

(** The remote calls a handler makes, with their arguments. *)
Inductive Call : Type :=
| OtpDelete (email purpose : string) (expires_lt : option Z)
| OtpSelectIds (email purpose : string) (expires_gte : Z)
| OtpSelectLatest (email purpose : string) (expires_gt : Z)
| OtpInsert (email code_hash purpose : string) (expires_at created_at : Z)
| ListUsers (email : string)
| CreateUser (email password : string)
| UpdateUserById (id password : string)
| SignInWithPassword (email password : string)
| SendMail (target code : string).

Definition is_store_call (c : Call) : bool :=
  match c with
  | OtpDelete _ _ _ | OtpSelectIds _ _ _ | OtpSelectLatest _ _ _
  | OtpInsert _ _ _ _ _ => true
  | _ => false
  end.

Definition is_provider_call (c : Call) : bool :=
  match c with
  | ListUsers _ | CreateUser _ _ | UpdateUserById _ _
  | SignInWithPassword _ _ => true
  | _ => false
  end.

Definition is_mail_call (c : Call) : bool :=
  match c with
  | SendMail _ _ => true
  | _ => false
  end.

Definition is_insert (c : Call) : bool :=
  match c with
  | OtpInsert _ _ _ _ _ => true
  | _ => false
  end.

(** The world a request runs in: the table, and the calls made so far. *)
Record World : Type := mkWorld {
  table : Db.Table;
  calls : list Call
}.

(** *** The body of an [async] handler

    A computation ends with a value, with [return new Response(...)], or
    with an exception. *)
Inductive Completion (A : Type) : Type :=
| Value (a : A)
| Return (r : Response)
| Throw.
Arguments Value {A} a.
Arguments Return {A} r.
Arguments Throw {A}.

Definition Async (A : Type) : Type := World -> Completion A * World.

Definition ret {A} (a : A) : Async A := fun w => (Value a, w).

Definition bind {A B} (m : Async A) (k : A -> Async B) : Async B :=
  fun w =>
    match m w with
    | (Value a, w') => k a w'
    | (Return r, w') => (Return r, w')
    | (Throw, w') => (Throw, w')
    end.

Definition respond {A} (r : Response) : Async A := fun w => (Return r, w).
Definition throw {A} : Async A := fun w => (Throw, w).

Definition record (c : Call) (w : World) : World :=
  mkWorld (table w) (calls w ++ [c]).

(** [try { ... } catch (err) { return 500 }] around a handler's body. *)
Definition try_catch (m : Async Response) (w : World) : Response * World :=
  match m w with
  | (Value r, w') => (r, w')
  | (Return r, w') => (r, w')
  | (Throw, w') => (error_response 500 "Internal server error", w')
  end.

(** [await req.json()] *)
Definition req_json (req : Request) : Async Payload :=
  match json req with
  | Some p => ret p
  | None => throw
  end.

(** *** The calls *)

Definition pair_filters (e p : string) : list Db.Filter :=
  [Db.eq_email e; Db.eq_purpose p].

(** [supabase.from("otp_codes").delete().eq("email", e).eq("purpose", p)],
    with [.lt("expires_at", t)] when [bound] is [Some t].  The value is the
    [error] of the answer. *)
Definition otp_delete (error : bool) (e p : string) (bound : option Z)
  : Async bool :=
  fun w =>
    let fs := match bound with
              | Some t => pair_filters e p ++ [Db.lt_expires_at t]
              | None => pair_filters e p
              end in
    let t' := if error then table w else Db.delete fs (table w) in
    (Value error, mkWorld t' (calls w ++ [OtpDelete e p bound])).

(** [.select("id").eq("email", e).eq("purpose", p).gte("expires_at", t)]:
    [data] (the ids) or an error. *)
Definition otp_select_ids (error : bool) (e p : string) (t : Z)
  : Async (option (list Z)) :=
  fun w =>
    let data :=
      if error then None
      else Some (map Db.id
                   (Db.select (pair_filters e p ++ [Db.gte_expires_at t]) (table w))) in
    (Value data, record (OtpSelectIds e p t) w).

(** [.select("id, code_hash, expires_at").eq("email", e).eq("purpose", p)
     .gt("expires_at", t).order("expires_at", { ascending: false })
     .limit(1).single()]: the pair [(data, error)].  [single] answers with an
    error when no row is left, as a failed read does. *)
Definition latest_active (e p : string) (t : Z) (tbl : Db.Table)
  : option Db.OtpRecord :=
  Db.single
    (Db.limit 1
       (Db.order_desc
          (Db.select (pair_filters e p ++ [Db.gt_expires_at t]) tbl))).

Definition otp_select_latest (error : bool) (e p : string) (t : Z)
  : Async (option Db.OtpRecord * bool) :=
  fun w =>
    let answer :=
      if error then (None, true)
      else match latest_active e p t (table w) with
           | Some r => (Some r, false)
           | None => (None, true)
           end in
    (Value answer, record (OtpSelectLatest e p t) w).

(** [.insert({ email, code_hash, purpose, expires_at, created_at })] *)
Definition otp_insert (error : bool) (e h p : string) (exp cre : Z)
  : Async bool :=
  fun w =>
    let t' := if error then table w else Db.insert e h p exp cre (table w) in
    (Value error, mkWorld t' (calls w ++ [OtpInsert e h p exp cre])).

(** The auth API: the answer is the outcome given. *)
Definition auth_call {A} (c : Call) (answer : A) : Async A :=
  fun w => (Value answer, record c w).

(** [new Date(t).toISOString()]: a [RangeError] outside the range of [Date]
    and for [NaN] ([None]). *)
Definition toISOString (t : option Z) : Async Z :=
  match t with
  | Some ms =>
      if (Z.abs ms <=? 8640000000000000) then ret ms else throw
  | None => throw
  end.

End Remote.

Declare Scope async_scope.
Delimit Scope async_scope with async.
Notation "x <- m ;; k" := (Remote.bind m (fun x => k))
(at level 61, m at next level, right associativity) : async_scope.
Notation "' pat <- m ;; k" := (Remote.bind m (fun x => match x with pat => k end))
(at level 61, pat pattern, m at next level, right associativity) : async_scope.

Open Scope async_scope.

(** ** The responses, under the names the specification gives them *)

Module Reply.
Import Http.

Definition MethodNotAllowed : Response := mkResponse 405 (Text "Method Not Allowed").
Definition InternalError : Response := error_response 500 "Internal server error".
(* send function *)
Definition MissingEmailOrPurpose : Response := error_response 400 "Missing email or purpose".
Definition AlreadyExists : Response := error_response 400 "User already exists".
Definition CountFailed : Response := error_response 500 "Failed to check existing OTPs".
Definition RateLimited : Response :=
  error_response 429 "Too many attempts. Please wait before requesting another OTP.".
Definition SaveFailed : Response := error_response 500 "Failed to save OTP".
Definition DeliveryError : Response := error_response 500 "Failed to send email".
Definition EmailSent (data : string) : Response :=
  mkResponse 200 (MessageJson "Email sent successfully" data).
(* verify-otp *)
Definition MissingParameters : Response := error_response 400 "Missing parameters".
Definition InvalidOrExpired : Response := error_response 401 "Invalid or expired OTP".
Definition InvalidCode : Response := error_response 401 "Invalid OTP code".
Definition ProviderError (message : string) : Response := error_response 400 message.
Definition NotFound : Response := error_response 404 "User not found".
Definition InvalidPurpose : Response := error_response 400 "Invalid purpose".
Definition Success (session : Session) : Response := mkResponse 200 (SessionJson session).

End Reply.

(** ** The double arithmetic of the code generator *)

Module Double.

(** A double that is not negative and is a multiple of 2^-53 is given by its
    numerator over 2^53.  The doubles of the code generator are of this kind:
    [Math.random()], its product with 9000 and the sum with 1000. *)
Definition scale : Z := 2 ^ 53.

Definition of_int (z : Z) : Z := z * scale.

(** Rounding of a real number given by its numerator to the nearest double,
    ties to even: the numerator keeps its 53 leading bits. *)
Definition round53 (n : Z) : Z :=
  let sh := Z.log2 n - 52 in
  if sh <=? 0 then n
  else
    let q := n / 2 ^ sh in
    let r := n mod 2 ^ sh in
    let half := 2 ^ (sh - 1) in
    (if (half <? r) || ((r =? half) && Z.odd q) then q + 1 else q) * 2 ^ sh.

(** [x * c] for a whole number [c], and [x + y] *)
Definition mul_int (x c : Z) : Z := round53 (x * c).
Definition add (x y : Z) : Z := round53 (x + y).

(** [Math.floor(x)], a whole number *)
Definition floor (x : Z) : Z := x / scale.

End Double.

(** ** The send function: [serve] of the handler that issues a code *)

Module SendOtp.
Import Http Remote Reply.

(** What the remote services and the platform answer during one request,
    one field per call site, under the name the handler gives the answer. *)
Record Outcomes : Type := mkOutcomes {
  listUsers : Answer (list User);   (* supabase.auth.admin.listUsers *)
  now : Z;                          (* new Date() of [const now] *)
  cleanupError : bool;
  countError : bool;
  random : Z;                       (* Math.random(), times 2^53 *)
  date_now : Z;                     (* Date.now() of [expiresAt] *)
  dbError : bool;
  delivery : Delivery               (* the fetch of sendMail *)
}.

(** [sendMail(_request, target, code)]; the HTML of the message is left
    out of the recorded call.  Both branches await [res.json()] before they
    answer, so a body that is not JSON ends in the [catch] of the handler. *)
Definition sendMail (d : Delivery) (target code : string) : Async Response :=
  fun w =>
    let w' := record (SendMail target code) w in
    match d with
    | Accepted data => (Value (EmailSent data), w')
    | Refused => (Value DeliveryError, w')
    | Unreadable => (Throw, w')
    | Unreachable => (Throw, w')
    end.

(** [Math.floor(1000 + Math.random() * 9000).toString()] *)
Definition generate_code (random : Z) : string :=
  NilZero.string_of_int
    (Z.to_int
       (Double.floor (Double.add (Double.of_int 1000) (Double.mul_int random 9000)))).

(** The handler.  [OTP_EXPIRATION_TIME] is the environment variable through
    [Number]: minutes, or [None] for [NaN]. *)
Definition handler (OTP_EXPIRATION_TIME : option Z) (o : Outcomes)
    (req : Request) (w : World) : Response * World :=
  if negb (String.eqb (method req) "POST") then (MethodNotAllowed, w)
  else
    try_catch (
      payload <- req_json req ;;
      let email := Http.email payload in
      let purpose := Http.purpose payload in
      if falsy email || falsy purpose then respond MissingEmailOrPurpose
      else
        _ <- (if String.eqb purpose "signup" then
                usersData <- auth_call (ListUsers email) (listUsers o) ;;
                (* if (!listError && usersData.users.length > 0) *)
                match usersData with
                | Data users =>
                    if (0 <? List.length users)%nat then respond AlreadyExists
                    else ret tt
                | Failure _ => ret tt
                end
              else ret tt) ;;
        let now := now o in
        (* a cleanup error is logged, and the handler goes on *)
        _ <- otp_delete (cleanupError o) email purpose (Some now) ;;
        activeOtps <- otp_select_ids (countError o) email purpose now ;;
        match activeOtps with
        | None => respond CountFailed
        | Some ids =>
            (* if (activeOtps && activeOtps.length >= 3) *)
            if (3 <=? List.length ids)%nat then respond RateLimited
            else
              let code := generate_code (random o) in
              let codeHash := Crypto.hashString code in
              expiresAt <- toISOString
                             (option_map (fun minutes => date_now o + minutes * 60 * 1000)
                                OTP_EXPIRATION_TIME) ;;
              dbError <- otp_insert (dbError o) email codeHash purpose expiresAt now ;;
              if dbError then respond SaveFailed
              else sendMail (delivery o) email code
        end) w.

End SendOtp.

(** ** [verify-otp/index.ts] *)

Module VerifyOtp.
Import Http Remote Reply.

Record Outcomes : Type := mkOutcomes {
  now : Z;                          (* new Date() of [const now] *)
  selectError : bool;               (* the lookup request itself fails *)
  deleteError : bool;               (* the delete request fails *)
  createError : option string;      (* createUser: [error.message] *)
  signIn : Answer Session;          (* signInWithPassword *)
  listUsers : Answer (list User);   (* supabase.auth.admin.listUsers *)
  updateError : option string       (* updateUserById: [error.message] *)
}.

(** The two steps the branches share: the delete of the pair's rows, whose
    answer the handler does not read, and the sign-in. *)
Definition delete_pair (o : Outcomes) (email purpose : string) : Async bool :=
  otp_delete (deleteError o) email purpose None.

Definition sign_in (o : Outcomes) (email password : string) : Async Session :=
  signInData <- auth_call (SignInWithPassword email password) (signIn o) ;;
  match signInData with
  | Failure message => respond (ProviderError message)
  | Data session => ret session
  end.

Definition handler (o : Outcomes) (req : Request) (w : World)
  : Response * World :=
  if negb (String.eqb (method req) "POST") then (MethodNotAllowed, w)
  else
    try_catch (
      payload <- req_json req ;;
      let email := Http.email payload in
      let purpose := Http.purpose payload in
      let code := Http.code payload in
      let password := Http.password payload in
      if falsy email || falsy purpose || falsy code || falsy password
      then respond MissingParameters
      else
        let now := now o in
        '(data, selectError) <- otp_select_latest (selectError o) email purpose now ;;
        (* if (selectError || !data) is the last branch *)
        match selectError, data with
        | false, Some data =>
            let valid := String.eqb (Crypto.hashString code) (Db.code_hash data) in
            if negb valid then respond InvalidCode
            else
              session <-
                (if String.eqb purpose "signup" then
                   createError <- auth_call (CreateUser email password) (createError o) ;;
                   match createError with
                   | Some message => respond (ProviderError message)
                   | None => sign_in o email password
                   end
                 else if String.eqb purpose "reset" then
                   usersData <- auth_call (ListUsers email) (listUsers o) ;;
                   match usersData with
                   | Data (user :: _) =>
                       updateError <- auth_call (UpdateUserById (user_id user) password)
                                        (updateError o) ;;
                       match updateError with
                       | Some message => respond (ProviderError message)
                       | None =>
                           session <- sign_in o email password ;;
                           _ <- delete_pair o email purpose ;;
                           ret session
                       end
                   (* if (listError || !usersData.users.length) *)
                   | Data [] | Failure _ =>
                       _ <- delete_pair o email purpose ;;
                       respond NotFound
                   end
                 else respond InvalidPurpose) ;;
              ret (Success session)
        | _, _ =>
            _ <- delete_pair o email purpose ;;
            respond InvalidOrExpired
        end) w.

End VerifyOtp.

(** ** The operations and notions of the specification *)

Module Spec.
Import Http Remote.

(** A record is active when [expiresAt] is strictly in the future of the
    evaluation time. *)
Definition active (now : Z) (r : Db.OtpRecord) : bool := now <? Db.expires_at r.

(** A record belongs to the pair (email, purpose). *)
Definition of_pair (e p : string) (r : Db.OtpRecord) : bool :=
  String.eqb (Db.email r) e && String.eqb (Db.purpose r) p.

Definition pair_records (e p : string) (t : Db.Table) : list Db.OtpRecord :=
  filter (of_pair e p) (Db.rows t).

Definition active_records (e p : string) (now : Z) (t : Db.Table)
  : list Db.OtpRecord :=
  filter (fun r => of_pair e p r && active now r) (Db.rows t).

(** [issue(email, purpose)]: a POST request to the send function. *)
Definition issue (ttl : option Z) (o : SendOtp.Outcomes) (e p : string)
    (w : World) : Response * World :=
  SendOtp.handler ttl o (mkRequest "POST" (Some (mkPayload e p "" ""))) w.

(** [verify(email, purpose, code, actionArgs)]: a POST request to
    verify-otp, the password being the credential of the action. *)
Definition verify (o : VerifyOtp.Outcomes) (e p c pw : string)
    (w : World) : Response * World :=
  VerifyOtp.handler o (mkRequest "POST" (Some (mkPayload e p c pw))) w.

(** The Provider steps of verify-otp all succeed, and end with session [s]. *)
Definition provider_ok (o : VerifyOtp.Outcomes) (p : string) (s : Session) : Prop :=
  if String.eqb p "signup" then
    VerifyOtp.createError o = None /\ VerifyOtp.signIn o = Data s
  else if String.eqb p "reset" then
    (exists u us, VerifyOtp.listUsers o = Data (u :: us)) /\
    VerifyOtp.updateError o = None /\ VerifyOtp.signIn o = Data s
  else False.

(** The record the lookup of verify-otp hands to the handler. *)
Definition found (o : VerifyOtp.Outcomes) (e p : string) (t : Db.Table)
  : option Db.OtpRecord :=
  if VerifyOtp.selectError o then None
  else latest_active e p (VerifyOtp.now o) t.

(** The world after the lookup of verify-otp, and after its delete of the
    pair's rows. *)
Definition looked_up (o : VerifyOtp.Outcomes) (e p : string) (w : World) : World :=
  record (OtpSelectLatest e p (VerifyOtp.now o)) w.

Definition pair_deleted (o : VerifyOtp.Outcomes) (e p : string) (w1 : World)
  : World :=
  mkWorld (if VerifyOtp.deleteError o then table w1
           else Db.delete (pair_filters e p) (table w1))
          (calls w1 ++ [OtpDelete e p None]).

(** [r] stands in [a ++ r :: b] before every row that expires as late. *)
Definition first_greatest (r : Db.OtpRecord) (a b : list Db.OtpRecord) : Prop :=
  Forall (fun x => Db.expires_at x < Db.expires_at r) a /\
  Forall (fun x => Db.expires_at x <= Db.expires_at r) b.

(** [r] is the first row of the pair with the greatest [expires_at]. *)
Definition latest_of_pair (e p : string) (r : Db.OtpRecord)
    (l : list Db.OtpRecord) : Prop :=
  exists a b, l = a ++ r :: b /\
    Forall (fun x => of_pair e p x = true -> Db.expires_at x < Db.expires_at r) a /\
    Forall (fun x => of_pair e p x = true -> Db.expires_at x <= Db.expires_at r) b.

(** The Signup precondition of the send function finds an account. *)
Definition account_listed (o : SendOtp.Outcomes) (p : string) : bool :=
  String.eqb p "signup" &&
  match SendOtp.listUsers o with
  | Data (_ :: _) => true
  | _ => false
  end.

(** The world after the Signup precondition, and after the cleanup. *)
Definition prechecked (e p : string) (w : World) : World :=
  if String.eqb p "signup" then record (ListUsers e) w else w.

Definition expired_filters (o : SendOtp.Outcomes) (e p : string) : list Db.Filter :=
  pair_filters e p ++ [Db.lt_expires_at (SendOtp.now o)].

Definition cleaned (o : SendOtp.Outcomes) (e p : string) (w0 : World) : World :=
  mkWorld (if SendOtp.cleanupError o then table w0
           else Db.delete (expired_filters o e p) (table w0))
          (calls w0 ++ [OtpDelete e p (Some (SendOtp.now o))]).

(** The rows the count query of the send function returns. *)
Definition counted (e p : string) (now : Z) (t : Db.Table) : list Db.OtpRecord :=
  Db.select (pair_filters e p ++ [Db.gte_expires_at now]) t.

(** The world once the send function has counted. *)
Definition counted_world (o : SendOtp.Outcomes) (e p : string) (w : World) : World :=
  record (OtpSelectIds e p (SendOtp.now o)) (cleaned o e p (prechecked e p w)).

(** [expiresAt], when the date is one. *)
Definition expiry (ttl : option Z) (o : SendOtp.Outcomes) : option Z :=
  match ttl with
  | Some minutes =>
      let ms := SendOtp.date_now o + minutes * 60 * 1000 in
      if Z.abs ms <=? 8640000000000000 then Some ms else None
  | None => None
  end.

(** The same outcomes, the Provider listing no account. *)
Definition no_account (o : SendOtp.Outcomes) : SendOtp.Outcomes :=
  SendOtp.mkOutcomes (Data []) (SendOtp.now o) (SendOtp.cleanupError o)
    (SendOtp.countError o) (SendOtp.random o) (SendOtp.date_now o)
    (SendOtp.dbError o) (SendOtp.delivery o).

(** The table without the rows of the pair that are not active at [now]. *)
Definition without_expired (e p : string) (now : Z) (t : Db.Table) : Db.Table :=
  Db.mkTable (filter (fun r => negb (of_pair e p r) || active now r) (Db.rows t))
             (Db.next_id t).

(** No record is written and nothing is mailed by the calls [l]. *)
Definition nothing_issued (l : list Call) : bool :=
  forallb (fun c => negb (is_insert c) && negb (is_mail_call c)) l.

End Spec.

(** ** Concrete requests, tables and outcomes *)

Module Scenario.
Import Http Remote.

Definition alice : string := "a@x.com".

(** A row of [alice] for purpose [p] that holds the hash of [code]. *)
Definition row (id : Z) (p code : string) (expires : Z) : Db.OtpRecord :=
  Db.mkOtp id alice (Crypto.hashString code) p expires 0.

Definition world_of (rows : list Db.OtpRecord) : World :=
  mkWorld (Db.mkTable rows (1 + Z.of_nat (List.length rows))) [].

(** Three rows of the pair that expire at 5000. *)
Definition three_rows (p : string) : World :=
  world_of [row 1 p "1234" 5000; row 2 p "5678" 5000; row 3 p "9012" 5000].

(** The send function at time 1000, every service answering; the Provider
    lists [users]. *)
Definition sending_at (t : Z) (users : Answer (list User)) : SendOtp.Outcomes :=
  SendOtp.mkOutcomes users t false false 0 t false (Accepted "msg-1").

Definition sending : Answer (list User) -> SendOtp.Outcomes := sending_at 1000.

Definition alice_account : User :=
  mkUser "7f9c2a1e-4b3d-4c8a-9e2f-1a2b3c4d5e6f" alice.

(** One row of the pair, for the code 1234, that expires at 5000. *)
Definition one_row (p : string) : World :=
  world_of [row 1 p "1234" 5000].

(** An older row of the pair for the code 1234 that expires at 500, and a
    newer one for the code 5678 that expires at 5000. *)
Definition two_rows (p : string) : World :=
  world_of [row 1 p "1234" 500; row 2 p "5678" 5000].

(** verify-otp at time [t], every service answering; the Provider lists
    [users] and signs in with the session [session-1]. *)
Definition verifying (t : Z) (users : Answer (list User)) : VerifyOtp.Outcomes :=
  VerifyOtp.mkOutcomes t false false None (Data "session-1") users None.

(** The same with a lookup that fails, and with a delete that fails. *)
Definition verifying_read_fails (t : Z) (users : Answer (list User))
  : VerifyOtp.Outcomes :=
  VerifyOtp.mkOutcomes t true false None (Data "session-1") users None.

Definition verifying_delete_fails (t : Z) (users : Answer (list User))
  : VerifyOtp.Outcomes :=
  VerifyOtp.mkOutcomes t false true None (Data "session-1") users None.

End Scenario.

(** ** [signin/index.ts] *)

Module SignIn.
Import Http Remote Reply.

Record Outcomes : Type := mkOutcomes {
  signIn : Answer Session           (* signInWithPassword *)
}.

Definition handler (o : Outcomes) (req : Request) (w : World)
  : Response * World :=
  if negb (String.eqb (method req) "POST") then (MethodNotAllowed, w)
  else
    try_catch (
      payload <- req_json req ;;
      let email := Http.email payload in
      let password := Http.password payload in
      if falsy email || falsy password then respond MissingParameters
      else
        signInData <- auth_call (SignInWithPassword email password) (signIn o) ;;
        match signInData with
        | Failure message => respond (ProviderError message)
        | Data session => ret (Success session)
        end) w.

End SignIn.

(** ** Notions for the properties of the handlers *)

Module Shape.
Import Http Remote.

(** A character of [0123456789abcdef]. *)
Definition is_hex (c : ascii) : bool :=
  existsb (Ascii.eqb c) (list_ascii_of_string "0123456789abcdef").

Definition hex_string (s : string) : bool :=
  forallb is_hex (list_ascii_of_string s).

(** The ids of the table are pairwise distinct and below the next value of
    the sequence ([id BIGSERIAL PRIMARY KEY]). *)
Definition unique_ids (t : Db.Table) : Prop :=
  NoDup (map Db.id (Db.rows t)) /\
  Forall (fun r => Db.id r < Db.next_id t) (Db.rows t).

(** The rows outside the pair are the same in both tables. *)
Definition same_elsewhere (e p : string) (t t' : Db.Table) : Prop :=
  filter (fun r => negb (Spec.of_pair e p r)) (Db.rows t')
  = filter (fun r => negb (Spec.of_pair e p r)) (Db.rows t).

(** The request is a POST whose body parses. *)
Definition posted (req : Request) : option Payload :=
  if String.eqb (method req) "POST" then json req else None.

(** The number the send function turns into the code. *)
Definition code_number (random : Z) : Z :=
  Double.floor (Double.add (Double.of_int 1000) (Double.mul_int random 9000)).

(** The row the send function writes. *)
Definition issued_row (ttl_expiry : Z) (o : SendOtp.Outcomes) (e p : string)
    (t : Db.Table) : Db.OtpRecord :=
  Db.mkOtp (Db.next_id t) e
    (Crypto.hashString (SendOtp.generate_code (SendOtp.random o))) p
    ttl_expiry (SendOtp.now o).

(** The world once the send function has written the row, and once it has
    asked for the mail. *)
Definition insert_call (expiresAt : Z) (o : SendOtp.Outcomes) (e p : string) : Call :=
  OtpInsert e (Crypto.hashString (SendOtp.generate_code (SendOtp.random o))) p
    expiresAt (SendOtp.now o).

Definition stored (expiresAt : Z) (o : SendOtp.Outcomes) (e p : string) (w : World)
  : World :=
  mkWorld
    (Db.insert e (Crypto.hashString (SendOtp.generate_code (SendOtp.random o))) p
       expiresAt (SendOtp.now o) (table (Spec.counted_world o e p w)))
    (calls (Spec.counted_world o e p w) ++ [insert_call expiresAt o e p]).

Definition mailed (expiresAt : Z) (o : SendOtp.Outcomes) (e p : string) (w : World)
  : World :=
  record (SendMail e (SendOtp.generate_code (SendOtp.random o)))
    (stored expiresAt o e p w).

(** Where a run of the send function on a complete request ends: at the
    Signup precondition, after the count, after an insert that failed, or
    after the request of the mail. *)
Inductive Stage : Type :=
| AtPrecheck
| AtCount
| AtFailedInsert (expiresAt : Z)
| AtMail (expiresAt : Z).

Definition world_at (st : Stage) (o : SendOtp.Outcomes) (e p : string) (w : World)
  : World :=
  match st with
  | AtPrecheck => Spec.prechecked e p w
  | AtCount => Spec.counted_world o e p w
  | AtFailedInsert expiresAt =>
      record (insert_call expiresAt o e p) (Spec.counted_world o e p w)
  | AtMail expiresAt => mailed expiresAt o e p w
  end.

Definition calls_at (st : Stage) (o : SendOtp.Outcomes) (e p : string) : list Call :=
  (if String.eqb p "signup" then [ListUsers e] else [])
  ++ match st with
     | AtPrecheck => []
     | AtCount =>
         [OtpDelete e p (Some (SendOtp.now o)); OtpSelectIds e p (SendOtp.now o)]
     | AtFailedInsert expiresAt =>
         [OtpDelete e p (Some (SendOtp.now o)); OtpSelectIds e p (SendOtp.now o);
          insert_call expiresAt o e p]
     | AtMail expiresAt =>
         [OtpDelete e p (Some (SendOtp.now o)); OtpSelectIds e p (SendOtp.now o);
          insert_call expiresAt o e p;
          SendMail e (SendOtp.generate_code (SendOtp.random o))]
     end.

(** The world a run of verify-otp on a complete request leaves: the lookup,
    the Provider calls [provider], and the delete of the pair when
    [deleted]. *)
Definition verified (o : VerifyOtp.Outcomes) (e p : string) (provider : list Call)
    (deleted : bool) (w : World) : World :=
  let w1 := mkWorld (table w)
              (calls w ++ OtpSelectLatest e p (VerifyOtp.now o) :: provider) in
  if deleted then Spec.pair_deleted o e p w1 else w1.

(** The calls made between two worlds. *)
Definition new_calls (w w' : World) : list Call :=
  skipn (List.length (calls w)) (calls w').

(** The number of rows the count query of the send function returns. *)
Definition count (e p : string) (now : Z) (t : Db.Table) : nat :=
  List.length (Spec.counted e p now t).

(** The request passes the checks that come before the first remote call. *)
Definition complete_send (req : Request) : bool :=
  match posted req with
  | Some pl => negb (falsy (email pl) || falsy (purpose pl))
  | None => false
  end.

Definition complete_verify (req : Request) : bool :=
  match posted req with
  | Some pl =>
      negb (falsy (email pl) || falsy (purpose pl) || falsy (code pl)
            || falsy (password pl))
  | None => false
  end.

Definition complete_signin (req : Request) : bool :=
  match posted req with
  | Some pl => negb (falsy (email pl) || falsy (password pl))
  | None => false
  end.

(** The answer to a request that does not pass them. *)
Definition refusal (missing : Response) (req : Request) : Response :=
  if negb (String.eqb (method req) "POST") then Reply.MethodNotAllowed
  else match json req with
       | None => Reply.InternalError
       | Some _ => missing
       end.

End Shape.

Arguments Crypto.hashString : simpl never.

(** * Properties *)

(** ** The hash *)

Example hashString_abc :
Crypto.hashString "abc"
= "ba7816bf8f01cfea414140de5dae2223b00361a396177a9cb410ff61f20015ad".
Proof. vm_compute. reflexivity. Qed.

Example hashString_empty :
Crypto.hashString ""
= "e3b0c44298fc1c149afbf4c8996fb92427ae41e4649b934ca495991b7852b855".
Proof. vm_compute. reflexivity. Qed.

Example generate_code_rounds_as_doubles :
  SendOtp.generate_code 25019997929836 = "1025" /\
  1000 + 25019997929836 * 9000 / 2 ^ 53 = 1024.
Proof. split; vm_compute; reflexivity. Qed.

Example generate_code_range :
SendOtp.generate_code 0 = "1000" /\ SendOtp.generate_code (2 ^ 53 - 1) = "9999".
Proof. split; vm_compute; reflexivity. Qed.

(** ** The query builder *)

Section Queries.
Import Db.

Lemma all_of_latest e p t r :
  all_of (Remote.pair_filters e p ++ [gt_expires_at t]) r
  = Spec.of_pair e p r && Spec.active t r.
Proof.
  unfold Spec.of_pair, Spec.active, Remote.pair_filters, eq_email, eq_purpose,
    gt_expires_at; cbn.
  now rewrite andb_true_r, andb_assoc.
Qed.

Lemma all_of_pair e p r :
  all_of (Remote.pair_filters e p) r = Spec.of_pair e p r.
Proof.
  unfold Spec.of_pair, Remote.pair_filters, eq_email, eq_purpose; cbn.
  now rewrite andb_true_r.
Qed.

Lemma select_latest e p t tbl :
  select (Remote.pair_filters e p ++ [gt_expires_at t]) tbl
  = Spec.active_records e p t tbl.
Proof.
  unfold select, Spec.active_records.
  apply filter_ext; intro r; apply all_of_latest.
Qed.

Lemma single_limit_1 l : single (limit 1 l) = hd_error l.
Proof. destruct l as [|x l]; reflexivity. Qed.

Lemma hd_insert_desc x l :
  hd_error (insert_desc x l)
  = match hd_error l with
    | None => Some x
    | Some y => if expires_at y <=? expires_at x then Some x else Some y
    end.
Proof.
  destruct l as [|y l]; cbn; [reflexivity|].
  now destruct (expires_at y <=? expires_at x).
Qed.

Lemma order_desc_nil l : order_desc l = [] -> l = [].
Proof.
  destruct l as [|x l]; [reflexivity|]; cbn.
  destruct (order_desc l) as [|y s]; cbn; [discriminate|].
  now destruct (expires_at y <=? expires_at x).
Qed.

Lemma hd_order_desc_split l r :
  hd_error (order_desc l) = Some r ->
  exists a b, l = a ++ r :: b /\ Spec.first_greatest r a b.
Proof.
  revert r; induction l as [|x l IH]; intros r H; [discriminate|].
  cbn in H; rewrite hd_insert_desc in H.
  destruct (hd_error (order_desc l)) as [y|] eqn:Hy.
  - destruct (IH y eq_refl) as (a & b & -> & Ha & Hb).
    destruct (Z.leb_spec (expires_at y) (expires_at x)) as [Hle|Hlt];
      injection H as <-.
    + exists [], (a ++ y :: b); split; [reflexivity|].
      split; [constructor|].
      apply Forall_app; split.
      * eapply Forall_impl; [|exact Ha]; cbn; intros; lia.
      * constructor; [exact Hle|].
        eapply Forall_impl; [|exact Hb]; cbn; intros; lia.
    + exists (x :: a), b; split; [reflexivity|].
      split; [constructor; assumption|assumption].
  - injection H as <-.
    assert (l = []) as ->.
    { apply order_desc_nil. now destruct (order_desc l). }
    exists [], []; repeat split; constructor.
Qed.

Lemma hd_order_desc_In l r : hd_error (order_desc l) = Some r -> In r l.
Proof.
  intros H; destruct (hd_order_desc_split _ _ H) as (a & b & -> & _).
  apply in_elt.
Qed.

Lemma hd_order_desc_first a b r :
  Spec.first_greatest r a b -> hd_error (order_desc (a ++ r :: b)) = Some r.
Proof.
  intros [Ha Hb]; induction a as [|x a IH]; cbn; rewrite hd_insert_desc.
  - destruct (hd_error (order_desc b)) as [y|] eqn:Hy; [|reflexivity].
    apply hd_order_desc_In in Hy.
    rewrite Forall_forall in Hb; specialize (Hb _ Hy).
    now destruct (Z.leb_spec (expires_at y) (expires_at r)); [|lia].
  - inversion Ha as [|? ? Hx Ha']; subst.
    rewrite (IH Ha').
    now destruct (Z.leb_spec (expires_at r) (expires_at x)); [lia|].
Qed.

Lemma filter_split {A} (f : A -> bool) l a' r b' :
  filter f l = a' ++ r :: b' ->
  exists a b, l = a ++ r :: b /\ filter f a = a' /\ filter f b = b' /\ f r = true.
Proof.
  revert a'; induction l as [|x l IH]; intros a' H; cbn in H.
  - now destruct a'.
  - destruct (f x) eqn:Hx.
    + destruct a' as [|y a']; cbn in H; injection H as <- H.
      * exists [], l; repeat split; assumption.
      * destruct (IH _ H) as (a & b & -> & <- & <- & Hr).
        exists (x :: a), b; cbn; rewrite Hx; repeat split; assumption.
    + destruct (IH _ H) as (a & b & -> & <- & <- & Hr).
      exists (x :: a), b; cbn; rewrite Hx; repeat split; assumption.
Qed.

End Queries.

(** ** The lookup of verify-otp *)

Section Lookup.
Import Db Remote.

Lemma latest_active_hd e p t tbl :
  latest_active e p t tbl
  = hd_error (order_desc (Spec.active_records e p t tbl)).
Proof.
  unfold latest_active. now rewrite single_limit_1, select_latest.
Qed.

Lemma latest_active_iff e p t tbl r :
  latest_active e p t tbl = Some r <->
  Spec.of_pair e p r = true /\ t < expires_at r /\ Spec.latest_of_pair e p r (rows tbl).
Proof.
  rewrite latest_active_hd; unfold Spec.active_records; split.
  - intros H. apply hd_order_desc_split in H.
    destruct H as (a' & b' & H & Ha & Hb).
    apply filter_split in H.
    destruct H as (a & b & Hl & <- & <- & Hr).
    apply andb_true_iff in Hr; destruct Hr as [Hp Hact].
    unfold Spec.active in Hact; apply Z.ltb_lt in Hact.
    repeat split; try assumption.
    exists a, b; split; [assumption|].
    rewrite Forall_forall in Ha, Hb.
    split; apply Forall_forall; intros x Hx Hpx.
    + destruct (Z.ltb_spec t (expires_at x)) as [Hlt|Hge]; [|lia].
      apply Ha, filter_In; split; [assumption|].
      rewrite Hpx; cbn; unfold Spec.active; now apply Z.ltb_lt.
    + destruct (Z.ltb_spec t (expires_at x)) as [Hlt|Hge]; [|lia].
      apply Hb, filter_In; split; [assumption|].
      rewrite Hpx; cbn; unfold Spec.active; now apply Z.ltb_lt.
  - intros (Hp & Hact & a & b & -> & Ha & Hb).
    rewrite filter_app; cbn [filter].
    rewrite Hp; unfold Spec.active at 2.
    replace (t <? expires_at r) with true by (symmetry; now apply Z.ltb_lt).
    cbn [andb].
    apply hd_order_desc_first.
    rewrite Forall_forall in Ha, Hb.
    split; apply Forall_forall; intros x Hx;
      apply filter_In in Hx; destruct Hx as [Hx Hf];
      apply andb_true_iff in Hf; destruct Hf as [Hpx _]; auto.
Qed.

Lemma latest_active_None e p t tbl :
  latest_active e p t tbl = None <-> Spec.active_records e p t tbl = [].
Proof.
  rewrite latest_active_hd; split.
  - intros H; apply order_desc_nil.
    now destruct (order_desc (Spec.active_records e p t tbl)).
  - now intros ->.
Qed.

(** The record found is an active record of the pair, and no active record
    of the pair expires later. *)
Lemma latest_active_most_recent e p t tbl r :
  latest_active e p t tbl = Some r ->
  In r (Spec.active_records e p t tbl) /\
  forall x, In x (Spec.active_records e p t tbl) -> expires_at x <= expires_at r.
Proof.
  rewrite latest_active_hd; intros H.
  destruct (hd_order_desc_split _ _ H) as (a & b & E & Ha & Hb).
  rewrite E; split; [apply in_elt|].
  intros x Hx; apply in_app_or in Hx.
  rewrite Forall_forall in Ha, Hb.
  destruct Hx as [Hx|[<-|Hx]]; [specialize (Ha _ Hx)| |specialize (Hb _ Hx)]; lia.
Qed.

(** The record found stays the one found for as long as it is active. *)
Lemma latest_active_later e p t t' tbl r :
  latest_active e p t tbl = Some r ->
  t' < expires_at r ->
  latest_active e p t' tbl = Some r.
Proof.
  rewrite !latest_active_iff; intros (Hp & _ & Hl) Ht; auto.
Qed.

End Lookup.

(** ** The runs of verify-otp, case by case *)

Section VerifyRuns.
Import Http Remote Reply.

Lemma falsy_false s : s <> "" -> falsy s = false.
Proof. intros H; unfold falsy; now apply String.eqb_neq. Qed.

Variable o : VerifyOtp.Outcomes.
Variables e p c pw : string.
Variable w : World.
Hypothesis He : e <> "".
Hypothesis Hp : p <> "".
Hypothesis Hc : c <> "".
Hypothesis Hpw : pw <> "".

Local Abbreviation looked_up := (Spec.looked_up o e p w).
Local Abbreviation pair_deleted := (Spec.pair_deleted o e p).

Ltac run :=
  unfold Spec.verify, VerifyOtp.handler, Spec.found, Spec.looked_up,
    Spec.pair_deleted in *;
  cbn [method json email purpose code password String.eqb Ascii.eqb Bool.eqb
       negb req_json];
  unfold try_catch, bind, ret, respond, otp_select_latest, auth_call,
    VerifyOtp.sign_in, VerifyOtp.delete_pair, otp_delete, bind, ret, respond;
  cbn [email purpose code password];
  rewrite !falsy_false by assumption;
  cbn [orb].

Lemma verify_not_found :
  Spec.found o e p (table w) = None ->
  Spec.verify o e p c pw w = (InvalidOrExpired, pair_deleted looked_up).
Proof.
  intros H; run.
  destruct (VerifyOtp.selectError o); [reflexivity|].
  now rewrite H.
Qed.

Lemma verify_mismatch r :
  Spec.found o e p (table w) = Some r ->
  Crypto.hashString c <> Db.code_hash r ->
  Spec.verify o e p c pw w = (InvalidCode, looked_up).
Proof.
  intros H Hh; run.
  destruct (VerifyOtp.selectError o); [discriminate|].
  rewrite H.
  apply String.eqb_neq in Hh; now rewrite Hh.
Qed.

Lemma verify_other_purpose r :
  Spec.found o e p (table w) = Some r ->
  Crypto.hashString c = Db.code_hash r ->
  p <> "signup" -> p <> "reset" ->
  Spec.verify o e p c pw w = (InvalidPurpose, looked_up).
Proof.
  intros H Hh H1 H2; run.
  destruct (VerifyOtp.selectError o); [discriminate|].
  rewrite H.
  apply String.eqb_eq in Hh; rewrite Hh.
  apply String.eqb_neq in H1, H2; now rewrite H1, H2.
Qed.

Lemma verify_signup r :
  Spec.found o e p (table w) = Some r ->
  Crypto.hashString c = Db.code_hash r ->
  p = "signup" ->
  Spec.verify o e p c pw w =
    let w2 := record (CreateUser e pw) looked_up in
    match VerifyOtp.createError o with
    | Some message => (ProviderError message, w2)
    | None =>
        let w3 := record (SignInWithPassword e pw) w2 in
        match VerifyOtp.signIn o with
        | Failure message => (ProviderError message, w3)
        | Data session => (Success session, w3)
        end
    end.
Proof.
  intros H Hh H1; run.
  destruct (VerifyOtp.selectError o); [discriminate|].
  rewrite H.
  apply String.eqb_eq in Hh; rewrite Hh.
  apply String.eqb_eq in H1; rewrite H1; cbn.
  destruct (VerifyOtp.createError o); [reflexivity|].
  now destruct (VerifyOtp.signIn o).
Qed.

Lemma verify_reset r :
  Spec.found o e p (table w) = Some r ->
  Crypto.hashString c = Db.code_hash r ->
  p = "reset" ->
  Spec.verify o e p c pw w =
    let w2 := record (ListUsers e) looked_up in
    match VerifyOtp.listUsers o with
    | Data (user :: _) =>
        let w3 := record (UpdateUserById (user_id user) pw) w2 in
        match VerifyOtp.updateError o with
        | Some message => (ProviderError message, w3)
        | None =>
            let w4 := record (SignInWithPassword e pw) w3 in
            match VerifyOtp.signIn o with
            | Failure message => (ProviderError message, w4)
            | Data session => (Success session, pair_deleted w4)
            end
        end
    | _ => (NotFound, pair_deleted w2)
    end.
Proof.
  intros H Hh H1; run.
  destruct (VerifyOtp.selectError o); [discriminate|].
  rewrite H.
  apply String.eqb_eq in Hh; rewrite Hh.
  subst p; cbn.
  destruct (VerifyOtp.listUsers o) as [[|u us]|]; try reflexivity.
  destruct (VerifyOtp.updateError o); [reflexivity|].
  now destruct (VerifyOtp.signIn o).
Qed.

End VerifyRuns.

(** ** The runs of the send function, case by case *)

Section IssueRuns.
Import Http Remote Reply.

Variable ttl : option Z.
Variable o : SendOtp.Outcomes.
Variables e p : string.
Variable w : World.
Hypothesis He : e <> "".
Hypothesis Hp : p <> "".

Ltac run :=
  unfold Spec.issue, SendOtp.handler, Spec.account_listed, Spec.counted_world,
    Spec.cleaned, Spec.prechecked, Spec.counted, Spec.expired_filters,
    Spec.expiry in *;
  cbn [method json email purpose String.eqb Ascii.eqb Bool.eqb negb req_json];
  unfold try_catch, bind, ret, respond, otp_select_ids, otp_insert, auth_call,
    otp_delete, SendOtp.sendMail, toISOString, bind, ret, respond, throw;
  cbn [email purpose];
  rewrite !falsy_false by assumption;
  cbn [orb].

Lemma issue_already_exists :
  Spec.account_listed o p = true ->
  Spec.issue ttl o e p w = (AlreadyExists, Spec.prechecked e p w).
Proof.
  intros H; run.
  destruct (String.eqb p "signup"); [|discriminate].
  now destruct (SendOtp.listUsers o) as [[|u us]|].
Qed.

Lemma issue_count_failed :
  Spec.account_listed o p = false ->
  SendOtp.countError o = true ->
  Spec.issue ttl o e p w = (CountFailed, Spec.counted_world o e p w).
Proof.
  intros H Hc; run.
  destruct (String.eqb p "signup");
    [destruct (SendOtp.listUsers o) as [[|u us]|]; try discriminate|];
    cbn; now rewrite Hc.
Qed.

Lemma issue_rate_limited :
  Spec.account_listed o p = false ->
  SendOtp.countError o = false ->
  (3 <= List.length (Spec.counted e p (SendOtp.now o)
                       (table (Spec.cleaned o e p (Spec.prechecked e p w)))))%nat ->
  Spec.issue ttl o e p w = (RateLimited, Spec.counted_world o e p w).
Proof.
  intros H Hc Hn; run.
  destruct (String.eqb p "signup");
    [destruct (SendOtp.listUsers o) as [[|u us]|]; try discriminate|];
    apply Nat.leb_le in Hn;
    cbn -[Nat.leb] in *; rewrite ?Nat.ltb_irrefl; cbn -[Nat.leb];
    rewrite Hc, length_map; now rewrite Hn.
Qed.

Lemma issue_proceeds :
  Spec.account_listed o p = false ->
  SendOtp.countError o = false ->
  (List.length (Spec.counted e p (SendOtp.now o)
                  (table (Spec.cleaned o e p (Spec.prechecked e p w)))) < 3)%nat ->
  Spec.issue ttl o e p w =
    let w2 := Spec.counted_world o e p w in
    match Spec.expiry ttl o with
    | None => (InternalError, w2)
    | Some expiresAt =>
        let code := SendOtp.generate_code (SendOtp.random o) in
        let call := OtpInsert e (Crypto.hashString code) p expiresAt (SendOtp.now o) in
        if SendOtp.dbError o then (SaveFailed, record call w2)
        else
          let w3 :=
            mkWorld (Db.insert e (Crypto.hashString code) p expiresAt
                       (SendOtp.now o) (table w2))
                    (calls w2 ++ [call]) in
          let w4 := record (SendMail e code) w3 in
          match SendOtp.delivery o with
          | Accepted data => (EmailSent data, w4)
          | Refused => (DeliveryError, w4)
          | Unreadable | Unreachable => (InternalError, w4)
          end
    end.
Proof.
  intros H Hc Hn; run.
  destruct (String.eqb p "signup");
    [destruct (SendOtp.listUsers o) as [[|u us]|]; try discriminate|];
    apply Nat.leb_gt in Hn;
    cbn -[Nat.leb Z.leb Z.abs Z.add Z.mul] in *; rewrite ?Nat.ltb_irrefl;
    cbn -[Nat.leb Z.leb Z.abs Z.add Z.mul]; rewrite Hc, length_map, Hn;
    (destruct ttl as [m|]; [|reflexivity]);
    cbn [option_map];
    (destruct (Z.abs _ <=? _); [|reflexivity]);
    (destruct (SendOtp.dbError o); [reflexivity|]);
    now destruct (SendOtp.delivery o).
Qed.

End IssueRuns.

(** ** What the cleanup and the count of the send function see *)

Section Counting.
Import Http Remote.

Lemma filter_length_le {A} (f g : A -> bool) l :
  (forall x, f x = true -> g x = true) ->
  (List.length (filter f l) <= List.length (filter g l))%nat.
Proof.
  intros H; induction l as [|x l IH]; cbn; [lia|].
  destruct (f x) eqn:Hf.
  - rewrite (H _ Hf); cbn; lia.
  - destruct (g x); cbn; lia.
Qed.

Lemma filter_after_filter {A} (f g : A -> bool) l :
  (forall x, f x = true -> g x = true) ->
  filter f (filter g l) = filter f l.
Proof.
  intros H; induction l as [|x l IH]; cbn; [reflexivity|].
  destruct (g x) eqn:Hg; cbn.
  - now rewrite IH.
  - destruct (f x) eqn:Hf; [|exact IH].
    rewrite (H _ Hf) in Hg; discriminate.
Qed.

Lemma all_of_counted e p t r :
  Db.all_of (pair_filters e p ++ [Db.gte_expires_at t]) r
  = Spec.of_pair e p r && (t <=? Db.expires_at r).
Proof.
  unfold Spec.of_pair, pair_filters, Db.eq_email, Db.eq_purpose,
    Db.gte_expires_at; cbn.
  now rewrite andb_true_r, andb_assoc.
Qed.

Lemma all_of_expired e p t r :
  Db.all_of (pair_filters e p ++ [Db.lt_expires_at t]) r
  = Spec.of_pair e p r && (Db.expires_at r <? t).
Proof.
  unfold Spec.of_pair, pair_filters, Db.eq_email, Db.eq_purpose,
    Db.lt_expires_at; cbn.
  now rewrite andb_true_r, andb_assoc.
Qed.

(** The count query counts the rows of the pair with [now <= expires_at]. *)
Lemma counted_filter e p t tbl :
  Spec.counted e p t tbl
  = filter (fun r => Spec.of_pair e p r && (t <=? Db.expires_at r)) (Db.rows tbl).
Proof.
  unfold Spec.counted, Db.select.
  apply filter_ext; intro r; apply all_of_counted.
Qed.

Lemma active_le_counted e p t tbl :
  (List.length (Spec.active_records e p t tbl)
   <= List.length (Spec.counted e p t tbl))%nat.
Proof.
  rewrite counted_filter; unfold Spec.active_records.
  apply filter_length_le; intros r H.
  apply andb_true_iff in H; destruct H as [-> H].
  unfold Spec.active in H; apply Z.ltb_lt in H; cbn.
  apply Z.leb_le; lia.
Qed.

(** The cleanup removes no row the count query or the lookup would return. *)
Lemma counted_after_cleanup o e p tbl :
  Spec.counted e p (SendOtp.now o) (Db.delete (Spec.expired_filters o e p) tbl)
  = Spec.counted e p (SendOtp.now o) tbl.
Proof.
  rewrite !counted_filter; unfold Db.delete; cbn [Db.rows].
  apply filter_after_filter; intros r H.
  unfold Spec.expired_filters; rewrite all_of_expired.
  apply andb_true_iff in H; destruct H as [-> H]; cbn.
  apply Z.leb_le in H; apply negb_true_iff, Z.ltb_ge; lia.
Qed.

Lemma active_after_cleanup o e p tbl :
  Spec.active_records e p (SendOtp.now o)
    (Db.delete (Spec.expired_filters o e p) tbl)
  = Spec.active_records e p (SendOtp.now o) tbl.
Proof.
  unfold Spec.active_records, Db.delete; cbn [Db.rows].
  apply filter_after_filter; intros r H.
  unfold Spec.expired_filters; rewrite all_of_expired.
  apply andb_true_iff in H; destruct H as [-> H]; cbn.
  unfold Spec.active in H; apply Z.ltb_lt in H.
  apply negb_true_iff, Z.ltb_ge; lia.
Qed.

Lemma prechecked_table e p w : table (Spec.prechecked e p w) = table w.
Proof. unfold Spec.prechecked; now destruct (String.eqb p "signup"). Qed.

Lemma prechecked_calls e p w :
  calls (Spec.prechecked e p w)
  = calls w ++ (if String.eqb p "signup" then [ListUsers e] else []).
Proof.
  unfold Spec.prechecked; destruct (String.eqb p "signup"); cbn;
    now rewrite ?app_nil_r.
Qed.

Lemma counted_world_table o e p w :
  table (Spec.counted_world o e p w)
  = if SendOtp.cleanupError o then table w
    else Db.delete (Spec.expired_filters o e p) (table w).
Proof.
  unfold Spec.counted_world, Spec.cleaned, record; cbn [table].
  now rewrite prechecked_table.
Qed.

Lemma counted_world_calls o e p w :
  calls (Spec.counted_world o e p w)
  = calls w ++ (if String.eqb p "signup" then [ListUsers e] else [])
      ++ [OtpDelete e p (Some (SendOtp.now o)); OtpSelectIds e p (SendOtp.now o)].
Proof.
  unfold Spec.counted_world, Spec.cleaned, record; cbn [calls].
  rewrite prechecked_calls, <- !app_assoc. reflexivity.
Qed.

End Counting.

(** * The claims *)

(** ** Issuing with three active records *)

Section RateLimit.
Import Http Remote Reply.

(** C1, as stated, fails: a Signup request for an address the Provider lists
    ends with AlreadyExists, whatever the number of active records. *)
Lemma issue_three_active_already_exists :
  List.length
    (Spec.active_records Scenario.alice "signup" 1000
       (table (Scenario.three_rows "signup"))) = 3%nat /\
  fst (Spec.issue (Some 10) (Scenario.sending (Data [Scenario.alice_account]))
         Scenario.alice "signup" (Scenario.three_rows "signup"))
  = AlreadyExists /\
  AlreadyExists <> RateLimited.
Proof.
  split; [vm_compute; reflexivity|].
  split; [vm_compute; reflexivity|discriminate].
Qed.

(** C1, amended.  For a request with an e-mail and a purpose whose pair has at
    least three active records, the send function writes no record and sends
    no mail; the table is the one before, less the expired rows of the pair
    when the cleanup ran and succeeded, and the active records of the pair are
    the same.  The answer is RateLimited unless an earlier step ends the
    request: AlreadyExists when the purpose is signup and the Provider lists a
    user, the storage error of the count when the count query fails. *)
Theorem issue_three_active ttl o e p w :
  e <> "" -> p <> "" ->
  (3 <= List.length (Spec.active_records e p (SendOtp.now o) (table w)))%nat ->
  fst (Spec.issue ttl o e p w)
  = (if Spec.account_listed o p then AlreadyExists
     else if SendOtp.countError o then CountFailed
     else RateLimited) /\
  table (snd (Spec.issue ttl o e p w))
  = (if Spec.account_listed o p || SendOtp.cleanupError o then table w
     else Db.delete (Spec.expired_filters o e p) (table w)) /\
  (exists new,
     calls (snd (Spec.issue ttl o e p w)) = calls w ++ new /\
     Spec.nothing_issued new = true) /\
  Spec.active_records e p (SendOtp.now o) (table (snd (Spec.issue ttl o e p w)))
  = Spec.active_records e p (SendOtp.now o) (table w).
Proof.
  intros He Hp H3.
  assert (Hcalls : Spec.nothing_issued
            ((if String.eqb p "signup" then [ListUsers e] else [])
             ++ [OtpDelete e p (Some (SendOtp.now o));
                 OtpSelectIds e p (SendOtp.now o)]) = true)
    by now destruct (String.eqb p "signup").
  assert (Htable : Spec.active_records e p (SendOtp.now o)
                     (table (Spec.counted_world o e p w))
                   = Spec.active_records e p (SendOtp.now o) (table w)).
  { rewrite counted_world_table.
    destruct (SendOtp.cleanupError o); [reflexivity|apply active_after_cleanup]. }
  destruct (Spec.account_listed o p) eqn:Hacc.
  - rewrite (issue_already_exists ttl o e p w He Hp Hacc); cbn [fst snd orb].
    rewrite prechecked_table, prechecked_calls.
    split; [reflexivity|]. split; [reflexivity|]. split; [|reflexivity].
    eexists; split; [reflexivity|].
    now destruct (String.eqb p "signup").
  - cbn [orb].
    assert (Hw : fst (Spec.issue ttl o e p w)
                 = (if SendOtp.countError o then CountFailed else RateLimited) /\
                 snd (Spec.issue ttl o e p w) = Spec.counted_world o e p w).
    { destruct (SendOtp.countError o) eqn:Hcount.
      - now rewrite (issue_count_failed ttl o e p w He Hp Hacc Hcount).
      - rewrite (issue_rate_limited ttl o e p w He Hp Hacc Hcount);
          [now split|].
        unfold Spec.cleaned; cbn [table]; rewrite prechecked_table.
        pose proof (active_le_counted e p (SendOtp.now o) (table w)) as Hle.
        destruct (SendOtp.cleanupError o);
          [|rewrite counted_after_cleanup]; lia. }
    destruct Hw as [-> ->].
    split; [reflexivity|]. split; [apply counted_world_table|].
    split; [|exact Htable].
    eexists; split; [apply counted_world_calls|exact Hcalls].
Qed.

Lemma issue_three_active_witness :
  fst (Spec.issue (Some 10) (Scenario.sending (Data []))
         Scenario.alice "reset" (Scenario.three_rows "reset"))
  = RateLimited.
Proof.
  apply (issue_three_active (Some 10) (Scenario.sending (Data []))
           Scenario.alice "reset" (Scenario.three_rows "reset"));
    [discriminate | discriminate | vm_compute; lia].
Defined.

End RateLimit.

(** ** When verification succeeds *)

Section VerifySuccess.
Import Http Remote Reply.




End VerifySuccess.

(** ** A purpose other than signup and reset, in verify-otp *)

Section VerifyPurpose.
Import Http Remote Reply.

(** C3, as stated, fails: with the purpose bogus and no record for the pair
    the request reads the table, asks for the delete of the pair, and ends
    with InvalidOrExpired. *)
Lemma verify_bogus_reads_store :
  fst (Spec.verify (Scenario.verifying 1000 (Data []))
         Scenario.alice "bogus" "1234" "secret" (Scenario.world_of []))
  = InvalidOrExpired /\
  InvalidOrExpired <> InvalidPurpose /\
  calls (snd (Spec.verify (Scenario.verifying 1000 (Data []))
                Scenario.alice "bogus" "1234" "secret" (Scenario.world_of [])))
  = [OtpSelectLatest Scenario.alice "bogus" 1000;
     OtpDelete Scenario.alice "bogus" None].
Proof.
  split; [vm_compute; reflexivity|].
  split; [discriminate|vm_compute; reflexivity].
Qed.

(** C3, amended.  For a purpose other than signup and reset a complete verify
    request whose lookup answers never succeeds and makes no Provider call,
    but the purpose is looked at last: the request first reads the table,
    then ends with InvalidOrExpired (after asking for the delete of the pair)
    when the pair has no active record, with InvalidCode when the hash differs
    from the most recent active record, and with InvalidPurpose only when the
    code matches that record, the table then being left as it was. *)
Theorem verify_other_purpose_outcome o e p c pw w :
  e <> "" -> p <> "" -> c <> "" -> pw <> "" ->
  p <> "signup" -> p <> "reset" ->
  VerifyOtp.selectError o = false ->
  Spec.verify o e p c pw w
  = match latest_active e p (VerifyOtp.now o) (table w) with
    | None => (InvalidOrExpired, Spec.pair_deleted o e p (Spec.looked_up o e p w))
    | Some r =>
        (if String.eqb (Crypto.hashString c) (Db.code_hash r)
         then InvalidPurpose else InvalidCode,
         Spec.looked_up o e p w)
    end /\
  (forall s, fst (Spec.verify o e p c pw w) <> Success s) /\
  (exists rest,
     calls (snd (Spec.verify o e p c pw w))
     = calls w ++ OtpSelectLatest e p (VerifyOtp.now o) :: rest /\
     forallb is_store_call rest = true /\
     forallb (fun call => negb (is_provider_call call)) rest = true) /\
  (fst (Spec.verify o e p c pw w) = InvalidPurpose ->
   table (snd (Spec.verify o e p c pw w)) = table w).
Proof.
  intros He Hp Hc Hpw H1 H2 Hsel.
  assert (Hfound : Spec.found o e p (table w)
                   = latest_active e p (VerifyOtp.now o) (table w))
    by (unfold Spec.found; now rewrite Hsel).
  assert (Hrun : Spec.verify o e p c pw w
    = match latest_active e p (VerifyOtp.now o) (table w) with
      | None => (InvalidOrExpired, Spec.pair_deleted o e p (Spec.looked_up o e p w))
      | Some r =>
          (if String.eqb (Crypto.hashString c) (Db.code_hash r)
           then InvalidPurpose else InvalidCode,
           Spec.looked_up o e p w)
      end).
  { rewrite <- Hfound.
    destruct (Spec.found o e p (table w)) as [r|] eqn:Hf.
    - destruct (String.eqb_spec (Crypto.hashString c) (Db.code_hash r)) as [Hh|Hh].
      + now apply verify_other_purpose with (r := r).
      + now apply verify_mismatch with (r := r).
    - now apply verify_not_found. }
  split; [exact Hrun|].
  rewrite Hrun.
  destruct (latest_active e p (VerifyOtp.now o) (table w)) as [r|]; cbn [fst snd].
  - split; [|split].
    + intros s; now destruct (String.eqb _ _).
    + exists []; repeat split; reflexivity.
    + reflexivity.
  - split; [|split].
    + discriminate.
    + exists [OtpDelete e p None]; split; [|split; reflexivity].
      unfold Spec.pair_deleted, Spec.looked_up, record; cbn [calls].
      now rewrite <- app_assoc.
    + discriminate.
Qed.

Lemma verify_other_purpose_outcome_witness :
  Spec.verify (Scenario.verifying 1000 (Data []))
    Scenario.alice "bogus" "1234" "secret" (Scenario.one_row "bogus")
  = (InvalidPurpose,
     Spec.looked_up (Scenario.verifying 1000 (Data [])) Scenario.alice "bogus"
       (Scenario.one_row "bogus")).
Proof.
  destruct (verify_other_purpose_outcome (Scenario.verifying 1000 (Data []))
              Scenario.alice "bogus" "1234" "secret" (Scenario.one_row "bogus")
              ltac:(discriminate) ltac:(discriminate) ltac:(discriminate)
              ltac:(discriminate) ltac:(discriminate) ltac:(discriminate)
              eq_refl)
    as [Hrun _].
  rewrite Hrun. vm_compute. reflexivity.
Defined.

End VerifyPurpose.

(** ** A purpose other than signup and reset, in the send function *)

Section IssuePurpose.
Import Http Remote Reply.

(** C4: the send function does not look at the purpose beyond the signup
    test.  With the purpose bogus on an empty table it asks for the cleanup,
    counts, writes a record of purpose bogus and mails the code. *)
Lemma issue_bogus_purpose_is_served :
  Spec.issue (Some 10) (Scenario.sending (Data [])) Scenario.alice "bogus"
    (Scenario.world_of [])
  = (EmailSent "msg-1",
     mkWorld
       (Db.mkTable
          [Db.mkOtp 1 Scenario.alice (Crypto.hashString "1000") "bogus" 601000 1000]
          2)
       [OtpDelete Scenario.alice "bogus" (Some 1000);
        OtpSelectIds Scenario.alice "bogus" 1000;
        OtpInsert Scenario.alice (Crypto.hashString "1000") "bogus" 601000 1000;
        SendMail Scenario.alice "1000"]).
Proof. vm_compute. reflexivity. Qed.

End IssuePurpose.

(** ** One notion of an active record *)

Section ActiveNotion.
Import Http Remote Reply.

(** C5: the count of the send function takes [expires_at >= now], the lookup
    of verify-otp [expires_at > now].  Three rows that expire at the very
    instant of the request are no active records and are not found by the
    lookup, yet the send function counts three and answers RateLimited. *)
Lemma count_includes_the_instant_of_expiry :
  Spec.active_records Scenario.alice "reset" 5000
    (table (Scenario.three_rows "reset")) = [] /\
  latest_active Scenario.alice "reset" 5000
    (table (Scenario.three_rows "reset")) = None /\
  List.length (Spec.counted Scenario.alice "reset" 5000
                 (table (Scenario.three_rows "reset"))) = 3%nat /\
  fst (Spec.issue (Some 10) (Scenario.sending_at 5000 (Data []))
         Scenario.alice "reset" (Scenario.three_rows "reset"))
  = RateLimited /\
  fst (Spec.verify (Scenario.verifying 5000 (Data [Scenario.alice_account]))
         Scenario.alice "reset" "1234" "secret" (Scenario.three_rows "reset"))
  = InvalidOrExpired.
Proof.
  split; [vm_compute; reflexivity|].
  split; [vm_compute; reflexivity|].
  split; [vm_compute; reflexivity|].
  split; vm_compute; reflexivity.
Qed.

End ActiveNotion.

(** ** Expired records *)

Section Expired.
Import Http Remote Reply.

Lemma active_without_expired e p t tbl :
  Spec.active_records e p t (Spec.without_expired e p t tbl)
  = Spec.active_records e p t tbl.
Proof.
  unfold Spec.active_records, Spec.without_expired; cbn [Db.rows].
  apply filter_after_filter; intros r H.
  apply andb_true_iff in H; destruct H as [_ ->]; apply orb_true_r.
Qed.

Lemma found_without_expired o e p tbl :
  Spec.found o e p (Spec.without_expired e p (VerifyOtp.now o) tbl)
  = Spec.found o e p tbl.
Proof.
  unfold Spec.found; destruct (VerifyOtp.selectError o); [reflexivity|].
  now rewrite !latest_active_hd, active_without_expired.
Qed.

(** The answer of verify-otp depends on the table through the record found
    only. *)
Lemma verify_answer_by_found o e p c pw w1 w2 :
  e <> "" -> p <> "" -> c <> "" -> pw <> "" ->
  Spec.found o e p (table w1) = Spec.found o e p (table w2) ->
  fst (Spec.verify o e p c pw w1) = fst (Spec.verify o e p c pw w2).
Proof.
  intros He Hp Hc Hpw Hf.
  destruct (Spec.found o e p (table w2)) as [r|] eqn:Hf2.
  - destruct (String.eqb_spec (Crypto.hashString c) (Db.code_hash r)) as [Hh|Hh].
    + destruct (String.eqb_spec p "signup") as [H1|H1];
        [|destruct (String.eqb_spec p "reset") as [H2|H2]].
      * rewrite (verify_signup o e p c pw w1 He Hp Hc Hpw r Hf Hh H1),
          (verify_signup o e p c pw w2 He Hp Hc Hpw r Hf2 Hh H1); cbn.
        destruct (VerifyOtp.createError o); [reflexivity|].
        now destruct (VerifyOtp.signIn o).
      * rewrite (verify_reset o e p c pw w1 He Hp Hc Hpw r Hf Hh H2),
          (verify_reset o e p c pw w2 He Hp Hc Hpw r Hf2 Hh H2); cbn.
        destruct (VerifyOtp.listUsers o) as [[|u us]|]; try reflexivity.
        destruct (VerifyOtp.updateError o); [reflexivity|].
        now destruct (VerifyOtp.signIn o).
      * now rewrite (verify_other_purpose o e p c pw w1 He Hp Hc Hpw r Hf Hh H1 H2),
          (verify_other_purpose o e p c pw w2 He Hp Hc Hpw r Hf2 Hh H1 H2).
    + now rewrite (verify_mismatch o e p c pw w1 He Hp Hc Hpw r Hf Hh),
        (verify_mismatch o e p c pw w2 He Hp Hc Hpw r Hf2 Hh).
  - now rewrite (verify_not_found o e p c pw w1 He Hp Hc Hpw Hf),
      (verify_not_found o e p c pw w2 He Hp Hc Hpw Hf2).
Qed.

(** C6, as stated, fails: the pair holds an expired record for the code
    submitted and a newer, active record for another code.  The lookup finds
    the active record, and the answer is InvalidCode, not InvalidOrExpired. *)
Lemma verify_expired_code_beside_active :
  In (Scenario.row 1 "reset" "1234" 500)
     (Db.rows (table (Scenario.two_rows "reset"))) /\
  Db.expires_at (Scenario.row 1 "reset" "1234" 500) <= 1000 /\
  Crypto.hashString "1234" = Db.code_hash (Scenario.row 1 "reset" "1234" 500) /\
  fst (Spec.verify (Scenario.verifying 1000 (Data [Scenario.alice_account]))
         Scenario.alice "reset" "1234" "secret" (Scenario.two_rows "reset"))
  = InvalidCode /\
  InvalidCode <> InvalidOrExpired.
Proof.
  split; [now left|].
  split; [vm_compute; discriminate|].
  split; [vm_compute; reflexivity|].
  split; [vm_compute; reflexivity|discriminate].
Qed.

(** C6, amended.  No expired record is ever matched: the answer to a complete
    verify request is the answer on the table without the rows of the pair
    whose [expires_at] is not in the future, even when the code submitted is
    the code of one of these rows; when no row of the pair has its
    [expires_at] in the future the answer is InvalidOrExpired, whatever the
    code; and when the lookup answers with a record, which is active, a code
    that does not hash to its [code_hash] gets InvalidCode, the code of an
    expired row included. *)
Theorem verify_expired o e p c pw w :
  e <> "" -> p <> "" -> c <> "" -> pw <> "" ->
  fst (Spec.verify o e p c pw w)
  = fst (Spec.verify o e p c pw
           (mkWorld (Spec.without_expired e p (VerifyOtp.now o) (table w)) (calls w))) /\
  ((forall r, In r (Db.rows (table w)) -> Spec.of_pair e p r = true ->
              Db.expires_at r <= VerifyOtp.now o) ->
   fst (Spec.verify o e p c pw w) = InvalidOrExpired) /\
  (forall r,
     VerifyOtp.selectError o = false ->
     latest_active e p (VerifyOtp.now o) (table w) = Some r ->
     Crypto.hashString c <> Db.code_hash r ->
     VerifyOtp.now o < Db.expires_at r /\
     fst (Spec.verify o e p c pw w) = InvalidCode).
Proof.
  intros He Hp Hc Hpw; split; [|split].
  - apply verify_answer_by_found; try assumption.
    cbn [table]; symmetry; apply found_without_expired.
  - intros Hexp.
    rewrite (verify_not_found o e p c pw w He Hp Hc Hpw); [reflexivity|].
    unfold Spec.found; destruct (VerifyOtp.selectError o); [reflexivity|].
    apply latest_active_None.
    unfold Spec.active_records.
    destruct (filter _ _) as [|x l] eqn:Hfil; [reflexivity|].
    assert (Hx : In x (x :: l)) by now left.
    rewrite <- Hfil in Hx; apply filter_In in Hx; destruct Hx as [Hin Hx].
    apply andb_true_iff in Hx; destruct Hx as [Hpair Hact].
    unfold Spec.active in Hact; apply Z.ltb_lt in Hact.
    specialize (Hexp x Hin Hpair); lia.
  - intros r Hsel Hl Hh; split.
    + now apply latest_active_iff in Hl.
    + rewrite (verify_mismatch o e p c pw w He Hp Hc Hpw r); [reflexivity| |exact Hh].
      unfold Spec.found; now rewrite Hsel.
Qed.

Lemma verify_expired_witness :
  Crypto.hashString "1234" = Db.code_hash (Scenario.row 1 "reset" "1234" 5000) /\
  fst (Spec.verify (Scenario.verifying 5001 (Data [Scenario.alice_account]))
         Scenario.alice "reset" "1234" "secret" (Scenario.one_row "reset"))
  = InvalidOrExpired.
Proof.
  split; [vm_compute; reflexivity|].
  refine (proj1 (proj2 (verify_expired
                          (Scenario.verifying 5001 (Data [Scenario.alice_account]))
                          Scenario.alice "reset" "1234" "secret"
                          (Scenario.one_row "reset")
                          ltac:(discriminate) ltac:(discriminate)
                          ltac:(discriminate) ltac:(discriminate))) _).
  intros r [<-|[]] _; vm_compute; discriminate.
Defined.

End Expired.

(** ** A wrong code *)

Section WrongCode.
Import Http Remote Reply.

Lemma provider_ok_purpose o p s :
  Spec.provider_ok o p s -> p = "signup" \/ p = "reset".
Proof.
  unfold Spec.provider_ok.
  destruct (String.eqb_spec p "signup"); [now left|].
  destruct (String.eqb_spec p "reset"); [now right|contradiction].
Qed.

(** A matching code and a Provider that answers give the session. *)
Lemma verify_succeeds o e p c pw w r s :
  e <> "" -> p <> "" -> c <> "" -> pw <> "" ->
  Spec.found o e p (table w) = Some r ->
  Crypto.hashString c = Db.code_hash r ->
  Spec.provider_ok o p s ->
  fst (Spec.verify o e p c pw w) = Success s.
Proof.
  intros He Hp Hc Hpw Hf Hh Hok.
  destruct (provider_ok_purpose _ _ _ Hok) as [H1|H2].
  - rewrite (verify_signup o e p c pw w He Hp Hc Hpw r Hf Hh H1).
    unfold Spec.provider_ok in Hok; subst p; cbn in Hok.
    destruct Hok as [-> ->]; reflexivity.
  - rewrite (verify_reset o e p c pw w He Hp Hc Hpw r Hf Hh H2).
    unfold Spec.provider_ok in Hok; subst p; cbn in Hok.
    destruct Hok as [(u & us & ->) [-> ->]]; reflexivity.
Qed.

(** C7.  When the lookup finds a record and the submitted code does not hash
    to its [code_hash], the request ends with InvalidCode after the lookup and
    nothing else: the table is the one before.  A later complete request for
    the pair, made while that record is active, with a code that hashes to
    its [code_hash] and a Provider whose steps succeed, succeeds. *)
Theorem verify_wrong_code o e p c pw w r :
  e <> "" -> p <> "" -> c <> "" -> pw <> "" ->
  Spec.found o e p (table w) = Some r ->
  Crypto.hashString c <> Db.code_hash r ->
  Spec.verify o e p c pw w = (InvalidCode, Spec.looked_up o e p w) /\
  table (snd (Spec.verify o e p c pw w)) = table w /\
  (forall o' c' pw' s,
     c' <> "" -> pw' <> "" ->
     VerifyOtp.selectError o' = false ->
     VerifyOtp.now o' < Db.expires_at r ->
     Crypto.hashString c' = Db.code_hash r ->
     Spec.provider_ok o' p s ->
     fst (Spec.verify o' e p c' pw' (snd (Spec.verify o e p c pw w))) = Success s).
Proof.
  intros He Hp Hc Hpw Hf Hh.
  rewrite (verify_mismatch o e p c pw w He Hp Hc Hpw r Hf Hh); cbn [fst snd].
  split; [reflexivity|]. split; [reflexivity|].
  intros o' c' pw' s Hc' Hpw' Hsel Hnow Hh' Hok.
  apply verify_succeeds with (r := r); try assumption.
  unfold Spec.found in *; rewrite Hsel.
  destruct (VerifyOtp.selectError o); [discriminate|].
  unfold Spec.looked_up, record; cbn [table].
  now apply latest_active_later with (t := VerifyOtp.now o).
Qed.

Lemma verify_wrong_code_witness :
  Spec.verify (Scenario.verifying 1000 (Data []))
    Scenario.alice "signup" "0000" "secret" (Scenario.one_row "signup")
  = (InvalidCode,
     Spec.looked_up (Scenario.verifying 1000 (Data [])) Scenario.alice "signup"
       (Scenario.one_row "signup")) /\
  fst (Spec.verify (Scenario.verifying 2000 (Data []))
         Scenario.alice "signup" "1234" "secret"
         (snd (Spec.verify (Scenario.verifying 1000 (Data []))
                 Scenario.alice "signup" "0000" "secret"
                 (Scenario.one_row "signup"))))
  = Success "session-1".
Proof.
  assert (H : Spec.found (Scenario.verifying 1000 (Data [])) Scenario.alice
                "signup" (table (Scenario.one_row "signup"))
              = Some (Scenario.row 1 "signup" "1234" 5000))
    by (vm_compute; reflexivity).
  assert (Hne : Crypto.hashString "0000"
                <> Db.code_hash (Scenario.row 1 "signup" "1234" 5000))
    by (vm_compute; discriminate).
  destruct (verify_wrong_code (Scenario.verifying 1000 (Data []))
              Scenario.alice "signup" "0000" "secret" (Scenario.one_row "signup")
              (Scenario.row 1 "signup" "1234" 5000)
              ltac:(discriminate) ltac:(discriminate) ltac:(discriminate)
              ltac:(discriminate) H Hne)
    as (Hrun & _ & Hlater).
  split; [exact Hrun|].
  apply Hlater;
    [discriminate | discriminate | reflexivity | reflexivity
    | vm_compute; reflexivity | split; reflexivity].
Defined.

End WrongCode.

(** ** After a successful reset *)

Section ResetSuccess.
Import Http Remote Reply.

Lemma pair_records_deleted e p tbl :
  Spec.pair_records e p (Db.delete (pair_filters e p) tbl) = [].
Proof.
  unfold Spec.pair_records, Db.delete; cbn [Db.rows].
  induction (Db.rows tbl) as [|x l IH]; cbn [filter]; [reflexivity|].
  rewrite all_of_pair.
  destruct (Spec.of_pair e p x) eqn:Hx; cbn [negb filter]; [exact IH|].
  now rewrite Hx.
Qed.

Lemma active_records_of_pair e p t tbl :
  Spec.active_records e p t tbl = filter (Spec.active t) (Spec.pair_records e p tbl).
Proof.
  unfold Spec.active_records, Spec.pair_records.
  induction (Db.rows tbl) as [|x l IH]; cbn; [reflexivity|].
  destruct (Spec.of_pair e p x); cbn; [|exact IH].
  destruct (Spec.active t x); now rewrite IH.
Qed.

(** The rows of the other pairs are the ones before. *)
Lemma other_pairs_kept e p tbl r :
  Spec.of_pair e p r = false ->
  In r (Db.rows (Db.delete (pair_filters e p) tbl)) <-> In r (Db.rows tbl).
Proof.
  intros H; unfold Db.delete; cbn [Db.rows].
  rewrite filter_In, all_of_pair, H; cbn; tauto.
Qed.

(** The world a successful reset leaves. *)
Lemma verify_reset_success o e c pw w s :
  e <> "" -> c <> "" -> pw <> "" ->
  fst (Spec.verify o e "reset" c pw w) = Success s ->
  exists u,
    snd (Spec.verify o e "reset" c pw w)
    = Spec.pair_deleted o e "reset"
        (mkWorld (table w)
           (calls w ++ [OtpSelectLatest e "reset" (VerifyOtp.now o);
                        ListUsers e;
                        UpdateUserById (user_id u) pw;
                        SignInWithPassword e pw])).
Proof.
  intros He Hc Hpw Hs.
  assert (Hp : "reset" <> "") by discriminate.
  destruct (Spec.found o e "reset" (table w)) as [r|] eqn:Hf.
  - destruct (String.eqb_spec (Crypto.hashString c) (Db.code_hash r)) as [Hh|Hh].
    + rewrite (verify_reset o e "reset" c pw w He Hp Hc Hpw r Hf Hh eq_refl) in *.
      cbn zeta in *.
      destruct (VerifyOtp.listUsers o) as [[|u us]|m]; try discriminate.
      destruct (VerifyOtp.updateError o) as [m|]; [discriminate|].
      destruct (VerifyOtp.signIn o) as [s'|m]; [|discriminate].
      cbn [fst snd] in *.
      exists u; unfold Spec.looked_up, record; cbn [calls table].
      now rewrite <- !app_assoc.
    + rewrite (verify_mismatch o e "reset" c pw w He Hp Hc Hpw r Hf Hh) in Hs.
      discriminate.
  - rewrite (verify_not_found o e "reset" c pw w He Hp Hc Hpw Hf) in Hs.
    discriminate.
Qed.

(** C8, as stated, fails: the answer of the delete that follows the sign-in is
    not looked at.  When that delete fails the session is returned all the
    same and the record stays, active. *)
Lemma verify_reset_delete_fails :
  fst (Spec.verify (Scenario.verifying_delete_fails 1000 (Data [Scenario.alice_account]))
         Scenario.alice "reset" "1234" "secret" (Scenario.one_row "reset"))
  = Success "session-1" /\
  Spec.active_records Scenario.alice "reset" 1000
    (table (snd (Spec.verify
                   (Scenario.verifying_delete_fails 1000 (Data [Scenario.alice_account]))
                   Scenario.alice "reset" "1234" "secret" (Scenario.one_row "reset"))))
  = [Scenario.row 1 "reset" "1234" 5000].
Proof. split; vm_compute; reflexivity. Qed.

(** C8, amended.  A complete Reset request that succeeds ends with the request
    to delete the rows of the pair.  When the data base carries that request
    out, the table is the one before less the rows of the pair: no record of
    the pair is left, active or not.  When it fails, the table is the one
    before. *)
Theorem verify_reset_deletes o e c pw w s :
  e <> "" -> c <> "" -> pw <> "" ->
  fst (Spec.verify o e "reset" c pw w) = Success s ->
  (exists before,
     calls (snd (Spec.verify o e "reset" c pw w))
     = before ++ [OtpDelete e "reset" None]) /\
  (VerifyOtp.deleteError o = false ->
   table (snd (Spec.verify o e "reset" c pw w))
   = Db.delete (pair_filters e "reset") (table w) /\
   Spec.pair_records e "reset" (table (snd (Spec.verify o e "reset" c pw w))) = [] /\
   forall t,
     Spec.active_records e "reset" t (table (snd (Spec.verify o e "reset" c pw w)))
     = []) /\
  (VerifyOtp.deleteError o = true ->
   table (snd (Spec.verify o e "reset" c pw w)) = table w).
Proof.
  intros He Hc Hpw Hs.
  destruct (verify_reset_success o e c pw w s He Hc Hpw Hs) as [u ->].
  unfold Spec.pair_deleted; cbn [calls table].
  split; [eexists; reflexivity|].
  split; intros ->; [|reflexivity].
  split; [reflexivity|].
  split; [apply pair_records_deleted|].
  intros t; now rewrite active_records_of_pair, pair_records_deleted.
Qed.

Lemma verify_reset_deletes_witness :
  fst (Spec.verify (Scenario.verifying 1000 (Data [Scenario.alice_account]))
         Scenario.alice "reset" "1234" "secret" (Scenario.one_row "reset"))
  = Success "session-1" /\
  Spec.pair_records Scenario.alice "reset"
    (table (snd (Spec.verify (Scenario.verifying 1000 (Data [Scenario.alice_account]))
                   Scenario.alice "reset" "1234" "secret" (Scenario.one_row "reset"))))
  = [].
Proof.
  assert (H : fst (Spec.verify (Scenario.verifying 1000 (Data [Scenario.alice_account]))
                     Scenario.alice "reset" "1234" "secret" (Scenario.one_row "reset"))
              = Success "session-1") by (vm_compute; reflexivity).
  split; [exact H|].
  destruct (verify_reset_deletes (Scenario.verifying 1000 (Data [Scenario.alice_account]))
              Scenario.alice "1234" "secret" (Scenario.one_row "reset") "session-1"
              ltac:(discriminate) ltac:(discriminate) ltac:(discriminate) H)
    as (_ & Hdel & _).
  exact (proj1 (proj2 (Hdel eq_refl))).
Defined.

End ResetSuccess.

(** ** A lookup that fails *)

Section ReadFailure.
Import Http Remote Reply.

(** C9: a failed read goes the way of a lookup that finds nothing.  The pair
    holds an active record for the code submitted; the lookup fails; the
    handler asks for the delete of the pair, which removes that record, and
    answers InvalidOrExpired. *)
Lemma verify_read_failure_deletes :
  latest_active Scenario.alice "reset" 1000 (table (Scenario.one_row "reset"))
  = Some (Scenario.row 1 "reset" "1234" 5000) /\
  Spec.verify (Scenario.verifying_read_fails 1000 (Data [Scenario.alice_account]))
    Scenario.alice "reset" "1234" "secret" (Scenario.one_row "reset")
  = (InvalidOrExpired,
     mkWorld (Db.mkTable [] 2)
       [OtpSelectLatest Scenario.alice "reset" 1000;
        OtpDelete Scenario.alice "reset" None]).
Proof. split; vm_compute; reflexivity. Qed.

End ReadFailure.

(** ** A Provider lookup that fails, in the send function *)

Section ListFailure.
Import Http Remote Reply.

(** C10.  When the user listing of the Signup precondition answers with an
    error, the send function runs as it does when the Provider lists no user:
    the same answer, the same table, the same calls.  In particular, with
    fewer than three rows counted, a date for [expiresAt], and a data base and
    a mail service that answer, the record is written and the code mailed. *)
Theorem issue_list_failure ttl o message :
  SendOtp.listUsers o = Failure message ->
  (forall req w,
     SendOtp.handler ttl o req w = SendOtp.handler ttl (Spec.no_account o) req w) /\
  (forall e w expiresAt data,
     e <> "" ->
     SendOtp.countError o = false ->
     (List.length
        (Spec.counted e "signup" (SendOtp.now o)
           (table (Spec.cleaned o e "signup" (Spec.prechecked e "signup" w)))) < 3)%nat ->
     Spec.expiry ttl o = Some expiresAt ->
     SendOtp.dbError o = false ->
     SendOtp.delivery o = Accepted data ->
     let code := SendOtp.generate_code (SendOtp.random o) in
     fst (Spec.issue ttl o e "signup" w) = EmailSent data /\
     table (snd (Spec.issue ttl o e "signup" w))
     = Db.insert e (Crypto.hashString code) "signup" expiresAt (SendOtp.now o)
         (table (Spec.counted_world o e "signup" w)) /\
     In (SendMail e code) (calls (snd (Spec.issue ttl o e "signup" w)))).
Proof.
  intros Hlist; split.
  - intros [m [[e p c pw]|]] w; unfold SendOtp.handler, Spec.no_account;
      cbn [method json req_json];
      (destruct (negb _); [reflexivity|]); [|reflexivity].
    unfold try_catch, bind, ret, respond, auth_call.
    cbn [email purpose SendOtp.listUsers SendOtp.now SendOtp.cleanupError
         SendOtp.countError SendOtp.random SendOtp.date_now SendOtp.dbError
         SendOtp.delivery].
    destruct (falsy e || falsy p); [reflexivity|].
    rewrite Hlist.
    destruct (String.eqb p "signup"); [|reflexivity].
    change (0 <? List.length (@nil User))%nat with false.
    cbv iota beta. reflexivity.
  - intros e w expiresAt data He Hcount Hlen Hexp Hdb Hdel code.
    assert (Hacc : Spec.account_listed o "signup" = false)
      by (unfold Spec.account_listed; now rewrite Hlist).
    rewrite (issue_proceeds ttl o e "signup" w He ltac:(discriminate) Hacc Hcount Hlen).
    rewrite Hexp, Hdb, Hdel; cbn [fst snd table calls record].
    split; [reflexivity|]. split; [reflexivity|].
    apply in_or_app; right; now left.
Qed.

Lemma issue_list_failure_witness :
  fst (Spec.issue (Some 10) (Scenario.sending (Failure "upstream"))
         Scenario.alice "signup" (Scenario.world_of []))
  = EmailSent "msg-1".
Proof.
  destruct (issue_list_failure (Some 10) (Scenario.sending (Failure "upstream"))
              "upstream" eq_refl) as [_ Hrun].
  refine (proj1 (Hrun Scenario.alice (Scenario.world_of []) 601000 "msg-1"
                   _ eq_refl _ eq_refl eq_refl eq_refl)).
  - discriminate.
  - vm_compute; lia.
Defined.

End ListFailure.

(** * Further properties of the code *)

(** ** [hashString] and the code generator *)

Section HashShape.

Lemma string_length_append s1 s2 :
  String.length (String.append s1 s2) = (String.length s1 + String.length s2)%nat.
Proof. induction s1 as [|c s1 IH]; cbn; [reflexivity|now rewrite IH]. Qed.

Lemma list_ascii_append s1 s2 :
  list_ascii_of_string (String.append s1 s2)
  = list_ascii_of_string s1 ++ list_ascii_of_string s2.
Proof. induction s1 as [|c s1 IH]; cbn; [reflexivity|now rewrite IH]. Qed.

Lemma concat_empty_cons x xs :
  String.concat "" (x :: xs) = String.append x (String.concat "" xs).
Proof.
  destruct xs as [|y ys]; cbn [String.concat]; [|reflexivity].
  induction x as [|c x IH]; cbn; [reflexivity|now rewrite <- IH].
Qed.

Lemma round_length st kw : List.length (Crypto.round st kw) = List.length st.
Proof.
  unfold Crypto.round.
  destruct st as [|a [|b [|c [|d [|e [|f [|g [|h [|i st]]]]]]]]]; reflexivity.
Qed.

Lemma rounds_length l st :
  List.length (fold_left Crypto.round l st) = List.length st.
Proof.
  revert st; induction l as [|kw l IH]; intros st; cbn; [reflexivity|].
  now rewrite IH, round_length.
Qed.

Lemma compress_length h block :
  List.length (Crypto.compress h block) = List.length h.
Proof.
  unfold Crypto.compress.
  rewrite length_map, length_combine, rounds_length. apply Nat.min_id.
Qed.

Lemma big_endian_bytes width x :
  List.length (Crypto.big_endian width x) = width /\
  Forall (fun b => 0 <= b < 256) (Crypto.big_endian width x).
Proof.
  induction width as [|n [IH1 IH2]]; cbn [Crypto.big_endian].
  - split; [reflexivity|constructor].
  - split; [cbn; now rewrite IH1|].
    constructor; [apply Z.mod_pos_bound; lia|exact IH2].
Qed.

(** The digest is 32 bytes. *)
Lemma sha256_bytes msg :
  List.length (Crypto.sha256 msg) = 32%nat /\
  Forall (fun b => 0 <= b < 256) (Crypto.sha256 msg).
Proof.
  unfold Crypto.sha256.
  set (bs := Crypto.blocks _ _).
  assert (H8 : List.length (fold_left Crypto.compress bs Crypto.initial_hash) = 8%nat).
  { generalize Crypto.initial_hash, (eq_refl : List.length Crypto.initial_hash = 8%nat).
    induction bs as [|b bs IH]; intros h Hh; cbn; [exact Hh|].
    apply IH; now rewrite compress_length. }
  set (h := fold_left _ _ _) in *; clearbody h; clear bs.
  split.
  - destruct h as [|a [|b [|c [|d [|e [|f [|g [|i [|j h]]]]]]]]]; try discriminate.
    reflexivity.
  - clear H8; induction h as [|x h IH]; cbn [map List.concat]; [constructor|].
    apply Forall_app; split; [apply big_endian_bytes|apply IH].
Qed.

Lemma hex_byte b :
  0 <= b < 256 ->
  String.length (Crypto.padStart2 (Crypto.toString16 b)) = 2%nat /\
  Shape.hex_string (Crypto.padStart2 (Crypto.toString16 b)) = true.
Proof.
  intros Hb.
  assert (Hall : forallb
            (fun n =>
               Nat.eqb (String.length
                          (Crypto.padStart2 (Crypto.toString16 (Z.of_nat n)))) 2
               && Shape.hex_string
                    (Crypto.padStart2 (Crypto.toString16 (Z.of_nat n))))
            (seq 0 256) = true) by (vm_compute; reflexivity).
  rewrite forallb_forall in Hall.
  specialize (Hall (Z.to_nat b)).
  rewrite Z2Nat.id in Hall by lia.
  assert (Hin : In (Z.to_nat b) (seq 0 256)) by (apply in_seq; lia).
  apply Hall, andb_true_iff in Hin; destruct Hin as [H1 H2].
  split; [now apply Nat.eqb_eq|exact H2].
Qed.

Lemma hex_concat bytes :
  Forall (fun b => 0 <= b < 256) bytes ->
  String.length
    (String.concat "" (map (fun b => Crypto.padStart2 (Crypto.toString16 b)) bytes))
  = (2 * List.length bytes)%nat /\
  Shape.hex_string
    (String.concat "" (map (fun b => Crypto.padStart2 (Crypto.toString16 b)) bytes))
  = true.
Proof.
  induction 1 as [|b bytes Hb _ [IH1 IH2]]; [split; reflexivity|].
  cbn [map]; rewrite concat_empty_cons.
  destruct (hex_byte b Hb) as [H1 H2].
  split.
  - rewrite string_length_append, H1, IH1; cbn [List.length]; lia.
  - unfold Shape.hex_string in *.
    rewrite list_ascii_append, forallb_app, H2, IH2; reflexivity.
Qed.

Lemma hashString_shape otp :
  String.length (Crypto.hashString otp) = 64%nat /\
  Shape.hex_string (Crypto.hashString otp) = true.
Proof.
  unfold Crypto.hashString.
  destruct (sha256_bytes (Crypto.encode otp)) as [Hlen Hbytes].
  destruct (hex_concat _ Hbytes) as [H1 H2].
  now rewrite H1, Hlen, H2.
Qed.

(** [hashString] answers with 64 characters, all of them lower-case
    hexadecimal digits, whatever the string hashed. *)
Theorem hashString_hex64 otp :
  String.length (Crypto.hashString otp) = 64%nat /\
  Shape.hex_string (Crypto.hashString otp) = true.
Proof. exact (hashString_shape otp). Qed.

Lemma round53_small n : n < 2 ^ 53 -> Double.round53 n = n.
Proof.
  intros H; unfold Double.round53.
  destruct (Z.leb_spec (Z.log2 n - 52) 0) as [_|Hsh]; [reflexivity|].
  exfalso.
  destruct (Z.le_gt_cases n 0) as [Hn|Hn].
  - rewrite Z.log2_nonpos in Hsh by exact Hn; lia.
  - apply Z.log2_lt_pow2 in H; lia.
Qed.

(** Above 2^53 the rounding keeps a multiple of [2 ^ sh] next to [n]. *)
Lemma round53_large n :
  2 ^ 53 <= n ->
  let sh := Z.log2 n - 52 in
  0 < sh /\
  (n mod 2 ^ sh = 0 -> Double.round53 n = n) /\
  (n / 2 ^ sh) * 2 ^ sh <= Double.round53 n <= (n / 2 ^ sh + 1) * 2 ^ sh /\
  (n mod 2 ^ sh < 2 ^ (sh - 1) -> Double.round53 n = (n / 2 ^ sh) * 2 ^ sh).
Proof.
  intros Hn sh.
  assert (Hsh : 0 < sh).
  { unfold sh. assert (53 <= Z.log2 n); [|lia].
    apply Z.log2_le_pow2; lia. }
  split; [exact Hsh|].
  unfold Double.round53; fold sh.
  destruct (Z.leb_spec sh 0) as [H|_]; [lia|].
  assert (Hd : 0 < 2 ^ sh) by (apply Z.pow_pos_nonneg; lia).
  assert (Hh : 0 < 2 ^ (sh - 1)) by (apply Z.pow_pos_nonneg; lia).
  pose proof (Z.div_mod n (2 ^ sh) ltac:(lia)) as Hdm.
  pose proof (Z.mod_pos_bound n (2 ^ sh) Hd) as Hr.
  set (d := 2 ^ sh) in *; set (q := n / d) in *; set (r := n mod d) in *.
  set (half := 2 ^ (sh - 1)) in *.
  repeat split.
  - intros H0; rewrite H0 in *.
    destruct (Z.ltb_spec half 0); [lia|].
    destruct (Z.eqb_spec 0 half); [lia|]. cbn [orb andb]. lia.
  - destruct ((half <? r) || ((r =? half) && Z.odd q)); nia.
  - destruct ((half <? r) || ((r =? half) && Z.odd q)); nia.
  - intros Hlt.
    destruct (Z.ltb_spec half r); [lia|].
    destruct (Z.eqb_spec r half); [lia|]. reflexivity.
Qed.

Lemma pow2_14_split sh : 0 < sh <= 14 -> 2 ^ 14 = 2 ^ (14 - sh) * 2 ^ sh.
Proof. intros H; rewrite <- Z.pow_add_r by lia. f_equal; lia. Qed.

Lemma round53_shift n : 2 ^ 53 <= n < 2 ^ 67 -> 0 < Z.log2 n - 52 <= 14.
Proof.
  intros [H1 H2].
  assert (53 <= Z.log2 n) by (apply Z.log2_le_pow2; lia).
  assert (Z.log2 n < 67) by (apply Z.log2_lt_pow2; lia).
  lia.
Qed.

(** The rounding does not cross a multiple of 2^14, below 2^67. *)
Lemma round53_le n m :
  0 <= n <= 2 ^ 14 * m -> n < 2 ^ 67 -> Double.round53 n <= 2 ^ 14 * m.
Proof.
  intros Hn H67.
  destruct (Z.lt_ge_cases n (2 ^ 53)) as [Hs|Hl].
  { rewrite round53_small by exact Hs; lia. }
  destruct (round53_large n Hl) as (Hsh & Hexact & [_ Hup] & _).
  pose proof (round53_shift n (conj Hl H67)) as Hsh14.
  set (sh := Z.log2 n - 52) in *.
  rewrite (pow2_14_split sh Hsh14) in *.
  assert (Hd : 0 < 2 ^ sh) by (apply Z.pow_pos_nonneg; lia).
  assert (Hc : 0 < 2 ^ (14 - sh)) by (apply Z.pow_pos_nonneg; lia).
  pose proof (Z.div_mod n (2 ^ sh) ltac:(lia)) as Hdm.
  pose proof (Z.mod_pos_bound n (2 ^ sh) Hd) as Hr.
  set (d := 2 ^ sh) in *; set (q := n / d) in *; set (r := n mod d) in *.
  set (c := 2 ^ (14 - sh)) in *.
  destruct (Z.eq_dec r 0) as [H0|H0].
  - rewrite (Hexact H0); lia.
  - assert (q + 1 <= c * m) by nia. nia.
Qed.

Lemma round53_ge n m :
  0 <= 2 ^ 14 * m <= n -> n < 2 ^ 67 -> 2 ^ 14 * m <= Double.round53 n.
Proof.
  intros Hn H67.
  destruct (Z.lt_ge_cases n (2 ^ 53)) as [Hs|Hl].
  { rewrite round53_small by exact Hs; lia. }
  destruct (round53_large n Hl) as (Hsh & _ & [Hlow _] & _).
  pose proof (round53_shift n (conj Hl H67)) as Hsh14.
  set (sh := Z.log2 n - 52) in *.
  rewrite (pow2_14_split sh Hsh14) in *.
  assert (Hd : 0 < 2 ^ sh) by (apply Z.pow_pos_nonneg; lia).
  assert (Hc : 0 < 2 ^ (14 - sh)) by (apply Z.pow_pos_nonneg; lia).
  pose proof (Z.div_mod n (2 ^ sh) ltac:(lia)) as Hdm.
  pose proof (Z.mod_pos_bound n (2 ^ sh) Hd) as Hr.
  set (d := 2 ^ sh) in *; set (q := n / d) in *; set (r := n mod d) in *.
  set (c := 2 ^ (14 - sh)) in *.
  assert (c * m <= q) by nia. nia.
Qed.

(** The product with 9000 stays below 9000, by one double at least. *)
Lemma product_below_9000 random :
  0 <= random < 2 ^ 53 ->
  0 <= Double.mul_int random 9000 <= 2 ^ 14 * (9000 * 2 ^ 39 - 1).
Proof.
  intros Hr; unfold Double.mul_int.
  split.
  - change 0 with (2 ^ 14 * 0) at 1. apply round53_ge; lia.
  - destruct (Z.le_gt_cases (random * 9000) (2 ^ 14 * (9000 * 2 ^ 39 - 1)))
      as [Hle|Hgt].
    + apply round53_le; lia.
    + assert (Hl : 2 ^ 53 <= random * 9000) by lia.
      destruct (round53_large _ Hl) as (_ & _ & _ & Hdown).
      assert (Hlog : Z.log2 (random * 9000) = 66)
        by (apply Z.log2_unique; lia).
      rewrite Hlog in Hdown; change (66 - 52) with 14 in Hdown.
      change (2 ^ (14 - 1)) with 8192 in Hdown.
      change (2 ^ 14) with 16384 in *.
      rewrite Hdown; Z.div_mod_to_equations; lia.
Qed.

Lemma code_number_range random :
  0 <= random < 2 ^ 53 -> 1000 <= Shape.code_number random <= 9999.
Proof.
  intros Hr; unfold Shape.code_number, Double.floor, Double.add, Double.of_int,
    Double.scale.
  pose proof (product_below_9000 random Hr) as Hp.
  set (P := Double.mul_int random 9000) in *.
  assert (H1 : 2 ^ 14 * (1000 * 2 ^ 39) <= Double.round53 (1000 * 2 ^ 53 + P))
    by (apply round53_ge; lia).
  assert (H2 : Double.round53 (1000 * 2 ^ 53 + P) <= 2 ^ 14 * (10000 * 2 ^ 39 - 1))
    by (apply round53_le; lia).
  set (S := Double.round53 _) in *.
  split.
  - apply Z.div_le_lower_bound; lia.
  - assert (S / 2 ^ 53 < 10000); [|lia].
    apply Z.div_lt_upper_bound; lia.
Qed.

Lemma generate_code_shape random :
  0 <= random < 2 ^ 53 ->
  1000 <= Shape.code_number random <= 9999 /\
  String.length (SendOtp.generate_code random) = 4%nat /\
  option_map Z.of_int (NilZero.int_of_string (SendOtp.generate_code random))
  = Some (Shape.code_number random).
Proof.
  intros Hr.
  assert (Hn : 1000 <= Shape.code_number random <= 9999)
    by now apply code_number_range.
  split; [exact Hn|].
  assert (Hall : forallb
            (fun k =>
               let n := 1000 + Z.of_nat k in
               let code := NilZero.string_of_int (Z.to_int n) in
               Nat.eqb (String.length code) 4
               && match option_map Z.of_int (NilZero.int_of_string code) with
                  | Some m => m =? n
                  | None => false
                  end)
            (seq 0 (Z.to_nat 9000)) = true) by (vm_compute; reflexivity).
  rewrite forallb_forall in Hall.
  specialize (Hall (Z.to_nat (Shape.code_number random - 1000))).
  cbv zeta in Hall.
  rewrite Z2Nat.id in Hall by lia.
  replace (1000 + (Shape.code_number random - 1000))
    with (Shape.code_number random) in Hall by lia.
  assert (Hin : In (Z.to_nat (Shape.code_number random - 1000))
                   (seq 0 (Z.to_nat 9000)))
    by (apply in_seq; lia).
  apply Hall, andb_true_iff in Hin; destruct Hin as [H1 H2].
  change (SendOtp.generate_code random)
    with (NilZero.string_of_int (Z.to_int (Shape.code_number random))).
  split; [now apply Nat.eqb_eq|].
  destruct (option_map _ _) as [m|]; [|discriminate].
  apply Z.eqb_eq in H2; now subst.
Qed.

(** For every value of [Math.random()] the code, the product and the sum
    being computed in doubles as the source computes them, is the decimal
    writing, on four digits, of a number between 1000 and 9999, and reads
    back as that number. *)
Theorem generate_code_four_digits random :
  0 <= random < 2 ^ 53 ->
  1000 <= Shape.code_number random <= 9999 /\
  String.length (SendOtp.generate_code random) = 4%nat /\
  option_map Z.of_int (NilZero.int_of_string (SendOtp.generate_code random))
  = Some (Shape.code_number random).
Proof. exact (generate_code_shape random). Qed.

Lemma generate_code_four_digits_witness :
  String.length (SendOtp.generate_code 25019997929836) = 4%nat.
Proof.
  refine (proj1 (proj2 (generate_code_four_digits 25019997929836 _))).
  split; [discriminate|reflexivity].
Defined.

End HashShape.

(** ** Every run of the send function *)

Section IssueCases.
Import Http Remote Reply.

Lemma String_eqb_false s t : s <> t -> String.eqb s t = false.
Proof. now intros H; apply String.eqb_neq. Qed.

Lemma falsy_true_iff s : falsy s = true <-> s = "".
Proof. unfold falsy; apply String.eqb_eq. Qed.

Lemma falsy_false_iff s : falsy s = false <-> s <> "".
Proof. unfold falsy; apply String.eqb_neq. Qed.

(** A request is refused before any remote call, or is an issue. *)
Lemma send_handler_cases ttl o req w :
  (Shape.complete_send req = false /\
   SendOtp.handler ttl o req w = (Shape.refusal MissingEmailOrPurpose req, w)) \/
  (Shape.complete_send req = true /\
   exists pl, Shape.posted req = Some pl /\ email pl <> "" /\ purpose pl <> "" /\
     SendOtp.handler ttl o req w = Spec.issue ttl o (email pl) (purpose pl) w).
Proof.
  destruct req as [m [[e p c pw]|]];
    unfold Shape.complete_send, Shape.posted, Shape.refusal, Spec.issue,
      SendOtp.handler;
    cbn [method json email purpose req_json String.eqb Ascii.eqb Bool.eqb negb];
    destruct (String.eqb m "POST") eqn:Hm; cbn [negb];
    try (left; split; reflexivity).
  unfold try_catch, bind, ret; cbn [email purpose].
  destruct (falsy e) eqn:He; [left; split; reflexivity|].
  destruct (falsy p) eqn:Hp; [left; split; reflexivity|].
  right; split; [reflexivity|].
  exists (mkPayload e p c pw); cbn [email purpose].
  rewrite falsy_false_iff in He, Hp.
  repeat split; try assumption.
  now rewrite !falsy_false by assumption.
Qed.

(** The runs of an issue. *)
Lemma issue_cases ttl o e p w :
  e <> "" -> p <> "" ->
  (Spec.account_listed o p = true /\
   Spec.issue ttl o e p w = (AlreadyExists, Spec.prechecked e p w)) \/
  (Spec.account_listed o p = false /\
   exists resp,
     Spec.issue ttl o e p w = (resp, Spec.counted_world o e p w) /\
     (resp = CountFailed \/ resp = RateLimited \/ resp = InternalError)) \/
  (Spec.account_listed o p = false /\
   SendOtp.countError o = false /\
   (Shape.count e p (SendOtp.now o) (table (Spec.counted_world o e p w)) < 3)%nat /\
   exists expiresAt,
     Spec.expiry ttl o = Some expiresAt /\
     ((SendOtp.dbError o = true /\
       Spec.issue ttl o e p w
       = (SaveFailed,
          record (Shape.insert_call expiresAt o e p) (Spec.counted_world o e p w))) \/
      (SendOtp.dbError o = false /\
       exists resp,
         Spec.issue ttl o e p w = (resp, Shape.mailed expiresAt o e p w) /\
         (resp = DeliveryError \/ resp = InternalError \/
          exists data, SendOtp.delivery o = Accepted data /\ resp = EmailSent data)))).
Proof.
  intros He Hp.
  destruct (Spec.account_listed o p) eqn:Hacc.
  { left; split; [reflexivity|now apply issue_already_exists]. }
  right.
  destruct (SendOtp.countError o) eqn:Hcount.
  { left; split; [reflexivity|]; exists CountFailed; split; [|now left].
    now apply issue_count_failed. }
  assert (Htab : table (Spec.counted_world o e p w)
                 = table (Spec.cleaned o e p (Spec.prechecked e p w)))
    by reflexivity.
  unfold Shape.count; rewrite Htab.
  destruct (Nat.le_gt_cases 3
              (List.length (Spec.counted e p (SendOtp.now o)
                 (table (Spec.cleaned o e p (Spec.prechecked e p w))))))
    as [Hn|Hn].
  { left; split; [reflexivity|]; exists RateLimited; split; [|now right; left].
    now apply issue_rate_limited. }
  pose proof (issue_proceeds ttl o e p w He Hp Hacc Hcount Hn) as Hrun.
  cbv zeta in Hrun.
  destruct (Spec.expiry ttl o) as [expiresAt|] eqn:Hexp.
  2:{ left; split; [reflexivity|]; exists InternalError; split;
        [exact Hrun|now right; right]. }
  right; split; [reflexivity|]. split; [reflexivity|]. split; [exact Hn|].
  exists expiresAt; split; [reflexivity|].
  destruct (SendOtp.dbError o).
  { left; split; [reflexivity|exact Hrun]. }
  right; split; [reflexivity|].
  destruct (SendOtp.delivery o) as [data| | |] eqn:Hdel.
  - exists (EmailSent data); split; [exact Hrun|].
    right; right; exists data; now split.
  - exists DeliveryError; split; [exact Hrun|now left].
  - exists InternalError; split; [exact Hrun|now right; left].
  - exists InternalError; split; [exact Hrun|now right; left].
Qed.

End IssueCases.

(** ** What delete and insert do to a table *)

Section TableFacts.
Import Http Remote Reply.

Lemma of_pair_refl e p id h exp cre :
  Spec.of_pair e p (Db.mkOtp id e h p exp cre) = true.
Proof. unfold Spec.of_pair; cbn. now rewrite !String.eqb_refl. Qed.

Lemma counted_insert e p t h exp cre T :
  Spec.counted e p t (Db.insert e h p exp cre T)
  = Spec.counted e p t T
    ++ (if t <=? exp then [Db.mkOtp (Db.next_id T) e h p exp cre] else []).
Proof.
  rewrite !counted_filter; unfold Db.insert; cbn [Db.rows].
  rewrite filter_app; cbn [filter].
  now rewrite of_pair_refl.
Qed.

Lemma active_insert e p t h exp cre T :
  Spec.active_records e p t (Db.insert e h p exp cre T)
  = Spec.active_records e p t T
    ++ (if t <? exp then [Db.mkOtp (Db.next_id T) e h p exp cre] else []).
Proof.
  unfold Spec.active_records, Db.insert; cbn [Db.rows].
  rewrite filter_app; cbn [filter].
  now rewrite of_pair_refl.
Qed.

Lemma NoDup_map_filter {A B} (f : A -> B) (g : A -> bool) l :
  NoDup (map f l) -> NoDup (map f (filter g l)).
Proof.
  induction l as [|x l IH]; cbn; [trivial|].
  intros H; inversion H as [|? ? Hx Hl]; subst.
  destruct (g x); cbn; [|now apply IH].
  constructor; [|now apply IH].
  intros Hin; apply Hx.
  apply in_map_iff in Hin; destruct Hin as (y & Hy & Hin).
  apply filter_In in Hin; destruct Hin as [Hin _].
  rewrite <- Hy; now apply in_map.
Qed.

Lemma unique_ids_delete fs T :
  Shape.unique_ids T -> Shape.unique_ids (Db.delete fs T).
Proof.
  intros [Hnd Hlt]; unfold Shape.unique_ids, Db.delete; cbn [Db.rows Db.next_id].
  split; [now apply NoDup_map_filter|].
  rewrite Forall_forall in *; intros r Hr.
  apply filter_In in Hr; now apply Hlt.
Qed.

Lemma NoDup_snoc {A} (l : list A) a :
  NoDup l -> ~ In a l -> NoDup (l ++ [a]).
Proof.
  induction l as [|x l IH]; cbn; intros Hnd Hin.
  - constructor; [intros []|constructor].
  - inversion Hnd as [|? ? Hx Hl]; subst.
    constructor.
    + intros H; apply in_app_or in H.
      destruct H as [H|[H|[]]]; [now apply Hx|subst; apply Hin; now left].
    + apply IH; [assumption|]. intros H; apply Hin; now right.
Qed.

Lemma unique_ids_insert e h p exp cre T :
  Shape.unique_ids T -> Shape.unique_ids (Db.insert e h p exp cre T).
Proof.
  intros [Hnd Hlt]; unfold Shape.unique_ids, Db.insert; cbn [Db.rows Db.next_id].
  rewrite Forall_forall in Hlt.
  split.
  - rewrite map_app; cbn [map Db.id].
    apply NoDup_snoc; [assumption|].
    intros Hin; apply in_map_iff in Hin; destruct Hin as (r & Hid & Hr).
    specialize (Hlt _ Hr); lia.
  - apply Forall_forall; intros r Hr; apply in_app_or in Hr.
    destruct Hr as [Hr|[<-|[]]]; [specialize (Hlt _ Hr)|cbn]; lia.
Qed.

Lemma same_elsewhere_refl e p T : Shape.same_elsewhere e p T T.
Proof. reflexivity. Qed.

Lemma same_elsewhere_trans e p T1 T2 T3 :
  Shape.same_elsewhere e p T1 T2 -> Shape.same_elsewhere e p T2 T3 ->
  Shape.same_elsewhere e p T1 T3.
Proof. unfold Shape.same_elsewhere; intros H1 H2; now rewrite H2, H1. Qed.

(** A delete whose filters start with the pair touches the pair only. *)
Lemma same_elsewhere_delete e p fs T :
  (forall r, Db.all_of fs r = true -> Spec.of_pair e p r = true) ->
  Shape.same_elsewhere e p T (Db.delete fs T).
Proof.
  intros H; unfold Shape.same_elsewhere, Db.delete; cbn [Db.rows].
  apply filter_after_filter; intros r Hr.
  destruct (Db.all_of fs r) eqn:Hfs; [|reflexivity].
  rewrite (H _ Hfs) in Hr; discriminate.
Qed.

Lemma same_elsewhere_insert e p h exp cre T :
  Shape.same_elsewhere e p T (Db.insert e h p exp cre T).
Proof.
  unfold Shape.same_elsewhere, Db.insert; cbn [Db.rows].
  rewrite filter_app; cbn [filter].
  now rewrite of_pair_refl, app_nil_r.
Qed.

Lemma expired_filters_pair o e p r :
  Db.all_of (Spec.expired_filters o e p) r = true -> Spec.of_pair e p r = true.
Proof.
  unfold Spec.expired_filters; rewrite all_of_expired.
  now intros H; apply andb_true_iff in H.
Qed.

Lemma pair_filters_pair e p r :
  Db.all_of (pair_filters e p) r = true -> Spec.of_pair e p r = true.
Proof. now rewrite all_of_pair. Qed.

Lemma new_calls_app w l : Shape.new_calls w (mkWorld (table w) (calls w ++ l)) = l.
Proof.
  unfold Shape.new_calls; cbn [calls].
  now rewrite skipn_app, skipn_all, Nat.sub_diag.
Qed.

Lemma new_calls_of w w' l : calls w' = calls w ++ l -> Shape.new_calls w w' = l.
Proof.
  intros H; unfold Shape.new_calls; rewrite H.
  now rewrite skipn_app, skipn_all, Nat.sub_diag.
Qed.

End TableFacts.

(** ** Where a run of the send function ends *)

Section IssueStages.
Import Http Remote Reply.

Lemma issue_stage ttl o e p w :
  e <> "" -> p <> "" ->
  exists st,
    snd (Spec.issue ttl o e p w) = Shape.world_at st o e p w /\
    match st with
    | Shape.AtPrecheck =>
        Spec.account_listed o p = true /\
        fst (Spec.issue ttl o e p w) = AlreadyExists
    | Shape.AtCount =>
        Spec.account_listed o p = false /\
        (fst (Spec.issue ttl o e p w) = CountFailed \/
         fst (Spec.issue ttl o e p w) = RateLimited \/
         fst (Spec.issue ttl o e p w) = InternalError)
    | Shape.AtFailedInsert expiresAt =>
        Spec.account_listed o p = false /\
        (Shape.count e p (SendOtp.now o) (table (Spec.counted_world o e p w)) < 3)%nat /\
        Spec.expiry ttl o = Some expiresAt /\
        SendOtp.dbError o = true /\
        fst (Spec.issue ttl o e p w) = SaveFailed
    | Shape.AtMail expiresAt =>
        Spec.account_listed o p = false /\
        (Shape.count e p (SendOtp.now o) (table (Spec.counted_world o e p w)) < 3)%nat /\
        Spec.expiry ttl o = Some expiresAt /\
        SendOtp.dbError o = false /\
        (fst (Spec.issue ttl o e p w) = DeliveryError \/
         fst (Spec.issue ttl o e p w) = InternalError \/
         exists data, SendOtp.delivery o = Accepted data /\
                      fst (Spec.issue ttl o e p w) = EmailSent data)
    end.
Proof.
  intros He Hp.
  destruct (issue_cases ttl o e p w He Hp)
    as [[Hacc ->]
       |[(Hacc & resp & -> & Hresp)
        |(Hacc & Hcount & Hn & expiresAt & Hexp &
          [[Hdb ->]|(Hdb & resp & -> & Hresp)])]].
  - exists Shape.AtPrecheck; now repeat split.
  - exists Shape.AtCount; now repeat split.
  - exists (Shape.AtFailedInsert expiresAt); now repeat split.
  - exists (Shape.AtMail expiresAt); now repeat split.
Qed.

Lemma world_at_calls st o e p w :
  calls (Shape.world_at st o e p w) = calls w ++ Shape.calls_at st o e p.
Proof.
  destruct st; unfold Shape.world_at, Shape.calls_at, Shape.mailed, Shape.stored,
    record; cbn [calls];
    rewrite ?counted_world_calls, ?prechecked_calls, <- ?app_assoc, ?app_nil_r;
    reflexivity.
Qed.

Lemma world_at_table st o e p w :
  table (Shape.world_at st o e p w)
  = match st with
    | Shape.AtPrecheck => table w
    | Shape.AtMail expiresAt =>
        Db.insert e (Crypto.hashString (SendOtp.generate_code (SendOtp.random o)))
          p expiresAt (SendOtp.now o) (table (Spec.counted_world o e p w))
    | _ => table (Spec.counted_world o e p w)
    end.
Proof. destruct st; cbn; [apply prechecked_table|reflexivity..]. Qed.

Lemma counted_world_count o e p w :
  Spec.counted e p (SendOtp.now o) (table (Spec.counted_world o e p w))
  = Spec.counted e p (SendOtp.now o) (table w).
Proof.
  rewrite counted_world_table.
  destruct (SendOtp.cleanupError o); [reflexivity|apply counted_after_cleanup].
Qed.

Lemma counted_world_active o e p w :
  Spec.active_records e p (SendOtp.now o) (table (Spec.counted_world o e p w))
  = Spec.active_records e p (SendOtp.now o) (table w).
Proof.
  rewrite counted_world_table.
  destruct (SendOtp.cleanupError o); [reflexivity|apply active_after_cleanup].
Qed.

Lemma counted_world_next_id o e p w :
  Db.next_id (table (Spec.counted_world o e p w)) = Db.next_id (table w).
Proof.
  rewrite counted_world_table. now destruct (SendOtp.cleanupError o).
Qed.

Lemma counted_world_elsewhere o e p w :
  Shape.same_elsewhere e p (table w) (table (Spec.counted_world o e p w)).
Proof.
  rewrite counted_world_table.
  destruct (SendOtp.cleanupError o); [apply same_elsewhere_refl|].
  apply same_elsewhere_delete, expired_filters_pair.
Qed.

Lemma counted_world_unique_ids o e p w :
  Shape.unique_ids (table w) ->
  Shape.unique_ids (table (Spec.counted_world o e p w)).
Proof.
  rewrite counted_world_table.
  destruct (SendOtp.cleanupError o); [trivial|apply unique_ids_delete].
Qed.

End IssueStages.

(** ** The send function: quota, success, mail *)

Section IssueFacts.
Import Http Remote Reply.

(** A request to the send function that is not a POST, does not parse or
    lacks the e-mail or the purpose is answered 405, 500 or 400 without a
    remote call; any other request reaches the remote services, first the
    user listing when the purpose is signup, first the cleanup otherwise. *)
Theorem send_first_call ttl o req w :
  (Shape.complete_send req = false /\
   SendOtp.handler ttl o req w = (Shape.refusal MissingEmailOrPurpose req, w)) \/
  (Shape.complete_send req = true /\
   exists pl rest,
     Shape.posted req = Some pl /\
     calls (snd (SendOtp.handler ttl o req w))
     = calls w
       ++ (if String.eqb (purpose pl) "signup" then ListUsers (email pl)
           else OtpDelete (email pl) (purpose pl) (Some (SendOtp.now o)))
       :: rest).
Proof.
  destruct (send_handler_cases ttl o req w)
    as [H|(Hc & pl & Hpl & He & Hp & Hrun)]; [now left|right].
  split; [exact Hc|]. rewrite Hrun.
  destruct (issue_stage ttl o (email pl) (purpose pl) w He Hp) as (st & -> & Hst).
  rewrite world_at_calls; unfold Shape.calls_at.
  unfold Spec.account_listed in Hst.
  destruct (String.eqb (purpose pl) "signup") eqn:Hs; cbn [app andb] in *.
  - exists pl; eexists; split; [exact Hpl|rewrite Hs; reflexivity].
  - destruct st; [destruct Hst; discriminate|..];
      exists pl; eexists; (split; [exact Hpl|rewrite Hs; reflexivity]).
Qed.

(** The send function never takes the number of rows its count query sees for
    the pair beyond three: after a complete request that number is at most
    three, or at most what it was. *)
Theorem issue_quota ttl o e p w :
  e <> "" -> p <> "" ->
  (Shape.count e p (SendOtp.now o) (table (snd (Spec.issue ttl o e p w)))
   <= Nat.max 3 (Shape.count e p (SendOtp.now o) (table w)))%nat.
Proof.
  intros He Hp.
  destruct (issue_stage ttl o e p w He Hp) as (st & -> & Hst).
  rewrite world_at_table; unfold Shape.count in *.
  destruct st as [| |exp|exp]; rewrite ?counted_insert, ?length_app,
    ?counted_world_count in *; try lia.
  destruct Hst as (_ & Hn & _).
  destruct (SendOtp.now o <=? exp); cbn [List.length]; lia.
Qed.

Lemma issue_quota_witness :
  Nat.le
    (Shape.count Scenario.alice "reset" 1000
       (table (snd (Spec.issue (Some 10) (Scenario.sending (Data []))
                      Scenario.alice "reset" (Scenario.three_rows "reset")))))
    (Nat.max 3%nat (Shape.count Scenario.alice "reset" 1000
                      (table (Scenario.three_rows "reset")))).
Proof.
  exact (issue_quota (Some 10) (Scenario.sending (Data [])) Scenario.alice "reset"
           (Scenario.three_rows "reset") ltac:(discriminate) ltac:(discriminate)).
Defined.

(** When the send function answers that the mail was sent, it has written
    exactly one row, at the end of the table the cleanup left, with the next
    id of the sequence, the hash of the code mailed and the expiry computed;
    when that expiry is in the future the pair has one active record more
    than before, and at most three. *)
Theorem issue_success_adds_one ttl o e p w data :
  e <> "" -> p <> "" ->
  fst (Spec.issue ttl o e p w) = EmailSent data ->
  exists expiresAt,
    Spec.expiry ttl o = Some expiresAt /\
    Db.rows (table (snd (Spec.issue ttl o e p w)))
    = Db.rows (table (Spec.counted_world o e p w))
      ++ [Shape.issued_row expiresAt o e p (table w)] /\
    Db.next_id (table (snd (Spec.issue ttl o e p w))) = Db.next_id (table w) + 1 /\
    (SendOtp.now o < expiresAt ->
     List.length (Spec.active_records e p (SendOtp.now o)
                    (table (snd (Spec.issue ttl o e p w))))
     = S (List.length (Spec.active_records e p (SendOtp.now o) (table w))) /\
     (List.length (Spec.active_records e p (SendOtp.now o)
                     (table (snd (Spec.issue ttl o e p w)))) <= 3)%nat).
Proof.
  intros He Hp Hs.
  destruct (issue_stage ttl o e p w He Hp) as (st & Hw & Hst).
  rewrite Hs in Hst.
  destruct st as [| |exp|exp];
    try (destruct Hst as (_ & [H|[H|H]]); discriminate);
    try (destruct Hst as (_ & _ & _ & _ & H); discriminate);
    try (destruct Hst as (_ & H); discriminate).
  destruct Hst as (_ & Hn & Hexp & _).
  exists exp; split; [exact Hexp|].
  rewrite Hw, world_at_table.
  unfold Db.insert at 1 2, Shape.issued_row; cbn [Db.rows Db.next_id].
  rewrite counted_world_next_id.
  split; [reflexivity|]. split; [reflexivity|].
  intros Hlt.
  rewrite active_insert, length_app, counted_world_active.
  apply Z.ltb_lt in Hlt; rewrite Hlt; cbn [List.length].
  split; [lia|].
  unfold Shape.count in Hn; rewrite counted_world_count in Hn.
  pose proof (active_le_counted e p (SendOtp.now o) (table w)); lia.
Qed.

Lemma issue_success_adds_one_witness :
  exists expiresAt,
    Spec.expiry (Some 10) (Scenario.sending (Data [])) = Some expiresAt /\
    Db.next_id (table (snd (Spec.issue (Some 10) (Scenario.sending (Data []))
                              Scenario.alice "reset" (Scenario.one_row "reset"))))
    = Db.next_id (table (Scenario.one_row "reset")) + 1.
Proof.
  destruct (issue_success_adds_one (Some 10) (Scenario.sending (Data []))
              Scenario.alice "reset" (Scenario.one_row "reset") "msg-1"
              ltac:(discriminate) ltac:(discriminate)
              ltac:(vm_compute; reflexivity))
    as (expiresAt & Hexp & _ & Hid & _).
  exists expiresAt; split; [exact Hexp|exact Hid].
Defined.

Lemma in_calls_at_mail st o e p target c :
  In (SendMail target c) (Shape.calls_at st o e p) ->
  target = e /\ c = SendOtp.generate_code (SendOtp.random o) /\
  exists expiresAt, st = Shape.AtMail expiresAt.
Proof.
  unfold Shape.calls_at, Shape.insert_call; intros H.
  apply in_app_or in H; destruct H as [H|H].
  - destruct (String.eqb p "signup"); cbn in H; [destruct H as [H|[]]|destruct H].
    discriminate.
  - destruct st; cbn in H;
      repeat (destruct H as [H|H]; [try discriminate|]); try contradiction.
    injection H as <- <-; eauto.
Qed.

(** The send function mails a code only after it has written the row that
    holds the hash of that very code, for the address mailed; a row written
    is always followed by the request of the mail; and the hash written is
    not the code itself. *)
Theorem issue_mail_is_stored ttl o e p w :
  e <> "" -> p <> "" ->
  0 <= SendOtp.random o < 2 ^ 53 ->
  (forall target c,
     In (SendMail target c) (Shape.new_calls w (snd (Spec.issue ttl o e p w))) ->
     target = e /\
     exists expiresAt,
       In (Shape.issued_row expiresAt o e p (table w))
          (Db.rows (table (snd (Spec.issue ttl o e p w)))) /\
       Db.code_hash (Shape.issued_row expiresAt o e p (table w))
       = Crypto.hashString c /\
       Db.code_hash (Shape.issued_row expiresAt o e p (table w)) <> c) /\
  (Db.next_id (table (snd (Spec.issue ttl o e p w))) <> Db.next_id (table w) ->
   In (SendMail e (SendOtp.generate_code (SendOtp.random o)))
      (Shape.new_calls w (snd (Spec.issue ttl o e p w)))).
Proof.
  intros He Hp Hrandom.
  destruct (issue_stage ttl o e p w He Hp) as (st & -> & _).
  rewrite (new_calls_of _ _ _ (world_at_calls st o e p w)), world_at_table.
  split.
  - intros target c Hin.
    destruct (in_calls_at_mail _ _ _ _ _ _ Hin) as (-> & -> & exp & ->).
    split; [reflexivity|]. exists exp.
    unfold Shape.issued_row, Db.insert; cbn [Db.rows Db.code_hash].
    rewrite counted_world_next_id.
    split; [apply in_or_app; right; now left|].
    split; [reflexivity|].
    intros Heq.
    pose proof (proj1 (hashString_shape
                         (SendOtp.generate_code (SendOtp.random o)))) as Hlen.
    rewrite Heq in Hlen.
    destruct (generate_code_shape _ Hrandom) as (_ & H4 & _).
    rewrite H4 in Hlen; discriminate.
  - destruct st as [| |exp|exp]; cbn [Db.insert Db.next_id];
      rewrite ?counted_world_next_id;
      try (intros H; now contradiction H).
    intros _; unfold Shape.calls_at.
    apply in_or_app; right; cbn; tauto.
Qed.

Lemma issue_mail_is_stored_witness :
  In (SendMail Scenario.alice "1000")
     (Shape.new_calls (Scenario.world_of [])
        (snd (Spec.issue (Some 10) (Scenario.sending (Data []))
                Scenario.alice "reset" (Scenario.world_of [])))).
Proof.
  refine (proj2 (issue_mail_is_stored (Some 10) (Scenario.sending (Data []))
                   Scenario.alice "reset" (Scenario.world_of [])
                   ltac:(discriminate) ltac:(discriminate) _) _).
  - split; [discriminate|reflexivity].
  - vm_compute; discriminate.
Defined.

End IssueFacts.

(** ** Every run of verify-otp *)

Section VerifyCases.
Import Http Remote Reply.

Lemma verify_handler_cases o req w :
  (Shape.complete_verify req = false /\
   VerifyOtp.handler o req w = (Shape.refusal MissingParameters req, w)) \/
  (Shape.complete_verify req = true /\
   exists pl, Shape.posted req = Some pl /\
     email pl <> "" /\ purpose pl <> "" /\ code pl <> "" /\ password pl <> "" /\
     VerifyOtp.handler o req w
     = Spec.verify o (email pl) (purpose pl) (code pl) (password pl) w).
Proof.
  destruct req as [m [[e p c pw]|]];
    unfold Shape.complete_verify, Shape.posted, Shape.refusal, Spec.verify,
      VerifyOtp.handler;
    cbn [method json email purpose code password req_json String.eqb Ascii.eqb
         Bool.eqb negb];
    destruct (String.eqb m "POST") eqn:Hm; cbn [negb];
    try (left; split; reflexivity).
  unfold try_catch, bind, ret; cbn [email purpose code password].
  destruct (falsy e) eqn:He; [left; split; reflexivity|].
  destruct (falsy p) eqn:Hp; [left; split; reflexivity|].
  destruct (falsy c) eqn:Hc; [left; split; reflexivity|].
  destruct (falsy pw) eqn:Hpw; [left; split; reflexivity|].
  right; split; [reflexivity|].
  exists (mkPayload e p c pw); cbn [email purpose code password].
  rewrite falsy_false_iff in He, Hp, Hc, Hpw.
  repeat split; try assumption.
  now rewrite !falsy_false by assumption.
Qed.

(** The world a complete verify request leaves, and when the delete of the
    pair is part of it. *)
Lemma verify_world o e p c pw w :
  e <> "" -> p <> "" -> c <> "" -> pw <> "" ->
  exists provider deleted,
    forallb is_provider_call provider = true /\
    snd (Spec.verify o e p c pw w) = Shape.verified o e p provider deleted w /\
    (deleted = true <->
     fst (Spec.verify o e p c pw w) = InvalidOrExpired \/
     fst (Spec.verify o e p c pw w) = NotFound \/
     (p = "reset" /\ exists s, fst (Spec.verify o e p c pw w) = Success s)).
Proof.
  intros He Hp Hc Hpw.
  assert (Hshape : forall l d,
            Shape.verified o e p l d w
            = (if d then Spec.pair_deleted o e p else fun x => x)
                (mkWorld (table w)
                   (calls w ++ OtpSelectLatest e p (VerifyOtp.now o) :: l)))
    by (intros l [|]; reflexivity).
  assert (Hno : forall r : Response,
            status r = 400 \/ r = InvalidCode ->
            ~ (r = InvalidOrExpired \/ r = NotFound \/
               (p = "reset" /\ exists s, r = Success s))).
  { intros r [H|H] [H'|[H'|(_ & s & H')]]; rewrite H' in H; discriminate. }
  destruct (Spec.found o e p (table w)) as [r|] eqn:Hf.
  2:{ exists [], true; rewrite (verify_not_found o e p c pw w He Hp Hc Hpw Hf).
      split; [reflexivity|]. split; [reflexivity|]. cbn; tauto. }
  destruct (String.eqb_spec (Crypto.hashString c) (Db.code_hash r)) as [Hh|Hh].
  2:{ exists [], false; rewrite (verify_mismatch o e p c pw w He Hp Hc Hpw r Hf Hh).
      split; [reflexivity|]. split; [reflexivity|].
      cbn [fst]; split; [discriminate|]. intros H; exfalso; revert H.
      apply Hno; now right. }
  destruct (String.eqb_spec p "signup") as [H1|H1];
    [|destruct (String.eqb_spec p "reset") as [H2|H2]].
  - rewrite (verify_signup o e p c pw w He Hp Hc Hpw r Hf Hh H1); cbv zeta.
    destruct (VerifyOtp.createError o) as [m|];
      [|destruct (VerifyOtp.signIn o) as [s|m]]; cbn [fst snd].
    + exists [CreateUser e pw], false.
      split; [reflexivity|]. split; [unfold Spec.looked_up, record; cbn;
        now rewrite <- app_assoc|].
      split; [discriminate|]. intros H; exfalso; revert H; apply Hno; now left.
    + exists [CreateUser e pw; SignInWithPassword e pw], false.
      split; [reflexivity|]. split; [unfold Spec.looked_up, record; cbn;
        now rewrite <- !app_assoc|].
      split; [discriminate|].
      intros [H|[H|(H & _)]]; try discriminate. subst p; discriminate.
    + exists [CreateUser e pw; SignInWithPassword e pw], false.
      split; [reflexivity|]. split; [unfold Spec.looked_up, record; cbn;
        now rewrite <- !app_assoc|].
      split; [discriminate|]. intros H; exfalso; revert H; apply Hno; now left.
  - rewrite (verify_reset o e p c pw w He Hp Hc Hpw r Hf Hh H2); cbv zeta.
    destruct (VerifyOtp.listUsers o) as [[|u us]|m];
      [| destruct (VerifyOtp.updateError o) as [m|];
         [|destruct (VerifyOtp.signIn o) as [s|m]] |]; cbn [fst snd].
    + exists [ListUsers e], true.
      split; [reflexivity|]. split; [unfold Shape.verified, Spec.looked_up, record;
        cbn; now rewrite <- !app_assoc|]. cbn; tauto.
    + exists [ListUsers e; UpdateUserById (user_id u) pw], false.
      split; [reflexivity|]. split; [unfold Spec.looked_up, record; cbn;
        now rewrite <- !app_assoc|].
      split; [discriminate|]. intros H; exfalso; revert H; apply Hno; now left.
    + exists [ListUsers e; UpdateUserById (user_id u) pw; SignInWithPassword e pw],
        true.
      split; [reflexivity|]. split; [unfold Shape.verified, Spec.looked_up, record;
        cbn; now rewrite <- !app_assoc|].
      split; [|reflexivity]. intros _; right; right; split; [exact H2|now exists s].
    + exists [ListUsers e; UpdateUserById (user_id u) pw; SignInWithPassword e pw],
        false.
      split; [reflexivity|]. split; [unfold Spec.looked_up, record; cbn;
        now rewrite <- !app_assoc|].
      split; [discriminate|]. intros H; exfalso; revert H; apply Hno; now left.
    + exists [ListUsers e], true.
      split; [reflexivity|]. split; [unfold Shape.verified, Spec.looked_up, record;
        cbn; now rewrite <- !app_assoc|]. cbn; tauto.
  - exists [], false.
    rewrite (verify_other_purpose o e p c pw w He Hp Hc Hpw r Hf Hh H1 H2).
    split; [reflexivity|]. split; [reflexivity|].
    cbn [fst]; split; [discriminate|].
    intros H; exfalso; revert H; apply Hno; now left.
Qed.

End VerifyCases.

(** ** verify-otp: the first call, the delete, the table *)

Section VerifyFacts.
Import Http Remote Reply.

Lemma verified_calls o e p provider deleted w :
  calls (Shape.verified o e p provider deleted w)
  = calls w
    ++ OtpSelectLatest e p (VerifyOtp.now o)
       :: provider ++ (if deleted then [OtpDelete e p None] else []).
Proof.
  destruct deleted; unfold Shape.verified, Spec.pair_deleted; cbn [calls].
  - now rewrite <- app_assoc.
  - now rewrite app_nil_r.
Qed.

Lemma verified_table o e p provider deleted w :
  table (Shape.verified o e p provider deleted w)
  = if deleted && negb (VerifyOtp.deleteError o)
    then Db.delete (pair_filters e p) (table w)
    else table w.
Proof.
  destruct deleted; unfold Shape.verified, Spec.pair_deleted; cbn [calls table andb];
    [|reflexivity].
  now destruct (VerifyOtp.deleteError o).
Qed.

Lemma provider_calls_no_delete provider e p :
  forallb is_provider_call provider = true -> ~ In (OtpDelete e p None) provider.
Proof.
  intros H Hin; rewrite forallb_forall in H.
  specialize (H _ Hin); discriminate.
Qed.

Lemma provider_calls_nothing_issued provider :
  forallb is_provider_call provider = true -> Spec.nothing_issued provider = true.
Proof.
  unfold Spec.nothing_issued; rewrite !forallb_forall; intros H c Hc.
  specialize (H _ Hc); now destruct c.
Qed.

(** A request to verify-otp that is not a POST, does not parse or lacks a
    field is answered 405, 500 or 400 without a remote call; for any other
    request the first remote call is the lookup of the latest record of the
    pair that expires after now. *)
Theorem verify_first_call o req w :
  (Shape.complete_verify req = false /\
   VerifyOtp.handler o req w = (Shape.refusal MissingParameters req, w)) \/
  (Shape.complete_verify req = true /\
   exists pl rest,
     Shape.posted req = Some pl /\
     calls (snd (VerifyOtp.handler o req w))
     = calls w
       ++ OtpSelectLatest (email pl) (purpose pl) (VerifyOtp.now o) :: rest).
Proof.
  destruct (verify_handler_cases o req w)
    as [H|(Hok & pl & Hpl & He & Hp & Hc & Hpw & Hrun)]; [now left|right].
  split; [exact Hok|]. rewrite Hrun.
  destruct (verify_world o _ _ _ _ w He Hp Hc Hpw) as (l & d & _ & -> & _).
  rewrite verified_calls.
  exists pl; eexists; split; [exact Hpl|reflexivity].
Qed.

(** A complete verify request asks for the delete of the pair's rows exactly
    when it answers InvalidOrExpired, NotFound, or a session for the purpose
    reset.  Without that delete the table is the one before; with it, the
    table is the one before less the rows of the pair when the delete is
    carried out.  No run writes a row or sends a mail. *)
Theorem verify_deletes_iff o e p c pw w :
  e <> "" -> p <> "" -> c <> "" -> pw <> "" ->
  (In (OtpDelete e p None) (Shape.new_calls w (snd (Spec.verify o e p c pw w))) <->
   fst (Spec.verify o e p c pw w) = InvalidOrExpired \/
   fst (Spec.verify o e p c pw w) = NotFound \/
   (p = "reset" /\ exists s, fst (Spec.verify o e p c pw w) = Success s)) /\
  (In (OtpDelete e p None) (Shape.new_calls w (snd (Spec.verify o e p c pw w))) ->
   table (snd (Spec.verify o e p c pw w))
   = if VerifyOtp.deleteError o then table w
     else Db.delete (pair_filters e p) (table w)) /\
  (~ In (OtpDelete e p None) (Shape.new_calls w (snd (Spec.verify o e p c pw w))) ->
   table (snd (Spec.verify o e p c pw w)) = table w) /\
  Spec.nothing_issued (Shape.new_calls w (snd (Spec.verify o e p c pw w))) = true.
Proof.
  intros He Hp Hc Hpw.
  destruct (verify_world o e p c pw w He Hp Hc Hpw) as (l & d & Hl & -> & Hd).
  rewrite (new_calls_of _ _ _ (verified_calls o e p l d w)), verified_table.
  assert (Hin : In (OtpDelete e p None)
                  (OtpSelectLatest e p (VerifyOtp.now o)
                   :: l ++ (if d then [OtpDelete e p None] else []))
                <-> d = true).
  { split.
    - intros [H|H]; [discriminate|].
      apply in_app_or in H; destruct H as [H|H].
      + now apply provider_calls_no_delete in H.
      + destruct d; [reflexivity|destruct H].
    - intros ->; right; apply in_or_app; right; now left. }
  split; [now rewrite Hin|].
  split; [|split].
  - rewrite Hin; intros ->; cbn [andb].
    now destruct (VerifyOtp.deleteError o).
  - rewrite Hin; intros H; destruct d; [now contradiction H|reflexivity].
  - unfold Spec.nothing_issued; cbn [forallb is_insert is_mail_call negb andb].
    rewrite forallb_app.
    fold (Spec.nothing_issued l); rewrite (provider_calls_nothing_issued _ Hl).
    now destruct d.
Qed.

Lemma verify_deletes_iff_witness :
  In (OtpDelete Scenario.alice "reset" None)
     (Shape.new_calls (Scenario.one_row "reset")
        (snd (Spec.verify (Scenario.verifying 1000 (Data []))
                Scenario.alice "reset" "1234" "secret" (Scenario.one_row "reset")))).
Proof.
  assert (H : fst (Spec.verify (Scenario.verifying 1000 (Data []))
                     Scenario.alice "reset" "1234" "secret"
                     (Scenario.one_row "reset")) = NotFound)
    by (vm_compute; reflexivity).
  exact (proj2 (proj1 (verify_deletes_iff (Scenario.verifying 1000 (Data []))
                         Scenario.alice "reset" "1234" "secret"
                         (Scenario.one_row "reset")
                         ltac:(discriminate) ltac:(discriminate)
                         ltac:(discriminate) ltac:(discriminate)))
           (or_intror (or_introl H))).
Defined.

(** A Signup verification never deletes the record it matched: after the
    session is answered the table is the one before, and the same request,
    answered the same way by the services, gets the same session again. *)
Theorem verify_signup_keeps_code o e c pw w s :
  e <> "" -> c <> "" -> pw <> "" ->
  fst (Spec.verify o e "signup" c pw w) = Success s ->
  table (snd (Spec.verify o e "signup" c pw w)) = table w /\
  fst (Spec.verify o e "signup" c pw (snd (Spec.verify o e "signup" c pw w)))
  = Success s.
Proof.
  intros He Hc Hpw Hs.
  assert (Hp : "signup" <> "") by discriminate.
  destruct (verify_world o e "signup" c pw w He Hp Hc Hpw) as (l & d & _ & Hw & Hd).
  assert (d = false) as ->.
  { destruct d; [|reflexivity].
    destruct (proj1 Hd eq_refl) as [H|[H|(H & _)]];
      try discriminate; rewrite Hs in H; discriminate. }
  assert (Ht : table (snd (Spec.verify o e "signup" c pw w)) = table w)
    by (rewrite Hw; apply verified_table).
  split; [exact Ht|].
  rewrite <- Hs; apply verify_answer_by_found; try assumption.
  now rewrite Ht.
Qed.

Lemma verify_signup_keeps_code_witness :
  table (snd (Spec.verify (Scenario.verifying 1000 (Data []))
                Scenario.alice "signup" "1234" "secret" (Scenario.one_row "signup")))
  = table (Scenario.one_row "signup").
Proof.
  exact (proj1 (verify_signup_keeps_code (Scenario.verifying 1000 (Data []))
                  Scenario.alice "1234" "secret" (Scenario.one_row "signup")
                  "session-1"
                  ltac:(discriminate) ltac:(discriminate) ltac:(discriminate)
                  ltac:(vm_compute; reflexivity))).
Defined.

End VerifyFacts.

(** ** What both handlers keep *)

Section Kept.
Import Http Remote Reply.

Lemma issue_elsewhere ttl o e p w :
  e <> "" -> p <> "" ->
  Shape.same_elsewhere e p (table w) (table (snd (Spec.issue ttl o e p w))).
Proof.
  intros He Hp.
  destruct (issue_stage ttl o e p w He Hp) as (st & -> & _).
  rewrite world_at_table.
  destruct st; try apply counted_world_elsewhere; [apply same_elsewhere_refl|].
  eapply same_elsewhere_trans;
    [apply counted_world_elsewhere|apply same_elsewhere_insert].
Qed.

Lemma issue_unique_ids ttl o e p w :
  e <> "" -> p <> "" ->
  Shape.unique_ids (table w) ->
  Shape.unique_ids (table (snd (Spec.issue ttl o e p w))).
Proof.
  intros He Hp Hu.
  destruct (issue_stage ttl o e p w He Hp) as (st & -> & _).
  rewrite world_at_table.
  destruct st; try (now apply counted_world_unique_ids); [exact Hu|].
  now apply unique_ids_insert, counted_world_unique_ids.
Qed.

Lemma verify_table_cases o e p c pw w :
  e <> "" -> p <> "" -> c <> "" -> pw <> "" ->
  table (snd (Spec.verify o e p c pw w)) = table w \/
  table (snd (Spec.verify o e p c pw w)) = Db.delete (pair_filters e p) (table w).
Proof.
  intros He Hp Hc Hpw.
  destruct (verify_world o e p c pw w He Hp Hc Hpw) as (l & d & _ & -> & _).
  rewrite verified_table.
  destruct (d && negb (VerifyOtp.deleteError o)); [now right|now left].
Qed.

(** Neither handler touches a row outside the pair of the request: the rows
    of every other address or purpose are the same, in the same order, after
    the request as before; and a request whose body does not parse, or that
    is no POST, leaves the table as it was. *)
Theorem handlers_touch_only_the_pair ttl o ov req w :
  match Shape.posted req with
  | Some pl =>
      Shape.same_elsewhere (email pl) (purpose pl) (table w)
        (table (snd (SendOtp.handler ttl o req w))) /\
      Shape.same_elsewhere (email pl) (purpose pl) (table w)
        (table (snd (VerifyOtp.handler ov req w)))
  | None =>
      table (snd (SendOtp.handler ttl o req w)) = table w /\
      table (snd (VerifyOtp.handler ov req w)) = table w
  end.
Proof.
  destruct (send_handler_cases ttl o req w)
    as [[Hs ->]|(Hs & pl & Hpl & He & Hp & ->)];
  destruct (verify_handler_cases ov req w)
    as [[Hv ->]|(Hv & pl' & Hpl' & He' & Hp' & Hc' & Hpw' & ->)];
    cbn [snd];
    try (rewrite Hpl); try (rewrite Hpl' in *);
    try (injection Hpl as <-).
  - destruct (Shape.posted req); split; try reflexivity; apply same_elsewhere_refl.
  - split; [apply same_elsewhere_refl|].
    destruct (verify_table_cases ov _ _ _ _ w He' Hp' Hc' Hpw') as [-> | ->];
      [apply same_elsewhere_refl|apply same_elsewhere_delete, pair_filters_pair].
  - split; [now apply issue_elsewhere|apply same_elsewhere_refl].
  - split; [now apply issue_elsewhere|].
    destruct (verify_table_cases ov _ _ _ _ w He' Hp' Hc' Hpw') as [-> | ->];
      [apply same_elsewhere_refl|apply same_elsewhere_delete, pair_filters_pair].
Qed.

(** Both handlers keep the ids of the table pairwise distinct and below the
    next value of the sequence, whatever the request and whatever the
    services answer. *)
Theorem handlers_keep_unique_ids ttl o ov req w :
  Shape.unique_ids (table w) ->
  Shape.unique_ids (table (snd (SendOtp.handler ttl o req w))) /\
  Shape.unique_ids (table (snd (VerifyOtp.handler ov req w))).
Proof.
  intros Hu; split.
  - destruct (send_handler_cases ttl o req w)
      as [[_ ->]|(_ & pl & _ & He & Hp & ->)]; [exact Hu|].
    now apply issue_unique_ids.
  - destruct (verify_handler_cases ov req w)
      as [[_ ->]|(_ & pl & _ & He & Hp & Hc & Hpw & ->)]; [exact Hu|].
    destruct (verify_table_cases ov _ _ _ _ w He Hp Hc Hpw) as [-> | ->];
      [exact Hu|now apply unique_ids_delete].
Qed.

Lemma handlers_keep_unique_ids_witness :
  Shape.unique_ids
    (table (snd (SendOtp.handler (Some 10) (Scenario.sending (Data []))
                   (mkRequest "POST" (Some (mkPayload Scenario.alice "reset" "" "")))
                   (Scenario.one_row "reset")))).
Proof.
  refine (proj1 (handlers_keep_unique_ids (Some 10) (Scenario.sending (Data []))
                   (Scenario.verifying 1000 (Data []))
                   (mkRequest "POST" (Some (mkPayload Scenario.alice "reset" "" "")))
                   (Scenario.one_row "reset") _)).
  split; cbn.
  - constructor; [intros []|constructor].
  - constructor; [reflexivity|constructor].
Defined.

End Kept.

(** ** Cleanup and count together *)

Section CleanupCount.
Import Http Remote Reply.

Lemma counted_after_cleanup_all o e p T :
  Spec.counted e p (SendOtp.now o) (Db.delete (Spec.expired_filters o e p) T)
  = Spec.pair_records e p (Db.delete (Spec.expired_filters o e p) T).
Proof.
  rewrite counted_filter; unfold Spec.pair_records, Db.delete; cbn [Db.rows].
  apply filter_ext_in; intros r Hr.
  apply filter_In in Hr; destruct Hr as [_ Hr].
  unfold Spec.expired_filters in Hr; rewrite all_of_expired in Hr.
  destruct (Spec.of_pair e p r); cbn in *; [|reflexivity].
  apply negb_true_iff, Z.ltb_ge in Hr. now apply Z.leb_le.
Qed.

Lemma pair_records_insert e p h exp cre T :
  Spec.pair_records e p (Db.insert e h p exp cre T)
  = Spec.pair_records e p T ++ [Db.mkOtp (Db.next_id T) e h p exp cre].
Proof.
  unfold Spec.pair_records, Db.insert; cbn [Db.rows].
  rewrite filter_app; cbn [filter]. now rewrite of_pair_refl.
Qed.

Lemma pair_records_delete_le e p fs T :
  (List.length (Spec.pair_records e p (Db.delete fs T))
   <= List.length (Spec.pair_records e p T))%nat.
Proof.
  unfold Spec.pair_records, Db.delete; cbn [Db.rows].
  induction (Db.rows T) as [|x l IH]; cbn; [lia|].
  destruct (Db.all_of fs x); cbn; destruct (Spec.of_pair e p x); cbn; lia.
Qed.

(** The cleanup and the count fit together: once the cleanup has removed the
    rows of the pair with [expires_at < now], the count query, which takes
    [expires_at >= now], returns every row the pair has left.  So a complete
    request whose cleanup succeeds leaves the pair with at most three rows
    in the table, or with no more rows than it had. *)
Theorem issue_bounds_pair_rows ttl o e p w :
  e <> "" -> p <> "" ->
  SendOtp.cleanupError o = false ->
  Spec.counted e p (SendOtp.now o)
    (Db.delete (Spec.expired_filters o e p) (table w))
  = Spec.pair_records e p (Db.delete (Spec.expired_filters o e p) (table w)) /\
  (List.length (Spec.pair_records e p (table (snd (Spec.issue ttl o e p w))))
   <= Nat.max 3 (List.length (Spec.pair_records e p (table w))))%nat.
Proof.
  intros He Hp Hclean.
  split; [apply counted_after_cleanup_all|].
  pose proof (pair_records_delete_le e p (Spec.expired_filters o e p) (table w)) as Hle.
  destruct (issue_stage ttl o e p w He Hp) as (st & -> & Hst).
  rewrite world_at_table.
  unfold Shape.count in Hst.
  rewrite ?counted_world_table, Hclean in *.
  destruct st as [| |exp|exp]; try lia.
  destruct Hst as (_ & Hn & _).
  rewrite counted_after_cleanup_all in Hn.
  rewrite pair_records_insert, length_app; cbn [List.length]; lia.
Qed.

Lemma issue_bounds_pair_rows_witness :
  Nat.le
    (List.length
       (Spec.pair_records Scenario.alice "reset"
          (table (snd (Spec.issue (Some 10) (Scenario.sending (Data []))
                         Scenario.alice "reset" (Scenario.one_row "reset"))))))
    (Nat.max 3%nat
       (List.length (Spec.pair_records Scenario.alice "reset"
                       (table (Scenario.one_row "reset"))))).
Proof.
  exact (proj2 (issue_bounds_pair_rows (Some 10) (Scenario.sending (Data []))
                  Scenario.alice "reset" (Scenario.one_row "reset")
                  ltac:(discriminate) ltac:(discriminate) eq_refl)).
Defined.

End CleanupCount.

(** ** The lookup, and a code from issue to verification *)

Section RoundTrip.
Import Http Remote Reply.

(** The lookup of verify-otp ([gt], [order] descending, [limit(1)],
    [single]) answers with an active record of the pair that no active record
    of the pair outlives, and answers with no record exactly when the pair has
    no active record. *)
Theorem lookup_most_recent e p t tbl :
  match latest_active e p t tbl with
  | Some r =>
      In r (Spec.active_records e p t tbl) /\
      forall x, In x (Spec.active_records e p t tbl) ->
                Db.expires_at x <= Db.expires_at r
  | None => Spec.active_records e p t tbl = []
  end.
Proof.
  destruct (latest_active e p t tbl) as [r|] eqn:H.
  - now apply latest_active_most_recent.
  - now apply latest_active_None.
Qed.

(** The row just written is the one the lookup finds, as long as it is
    active and outlives the rows the pair had. *)
Lemma issued_is_latest o e p w expiresAt t :
  (forall r, In r (Db.rows (table w)) -> Spec.of_pair e p r = true ->
             Db.expires_at r < expiresAt) ->
  t < expiresAt ->
  latest_active e p t (table (Shape.mailed expiresAt o e p w))
  = Some (Shape.issued_row expiresAt o e p (table w)).
Proof.
  intros Hold Ht.
  apply latest_active_iff.
  unfold Shape.issued_row.
  split; [apply of_pair_refl|]. split; [exact Ht|].
  exists (Db.rows (table (Spec.counted_world o e p w))), [].
  unfold Shape.mailed, Shape.stored, record, Db.insert; cbn [table Db.rows].
  rewrite counted_world_next_id.
  split; [reflexivity|]. split; [|constructor].
  apply Forall_forall; intros x Hx Hpx; cbn [Db.expires_at].
  apply Hold; [|exact Hpx].
  rewrite counted_world_table in Hx.
  destruct (SendOtp.cleanupError o); [exact Hx|].
  unfold Db.delete in Hx; cbn [Db.rows] in Hx.
  now apply filter_In in Hx.
Qed.

Lemma issue_mailed ttl o e p w data :
  e <> "" -> p <> "" ->
  fst (Spec.issue ttl o e p w) = EmailSent data ->
  exists expiresAt,
    Spec.expiry ttl o = Some expiresAt /\
    snd (Spec.issue ttl o e p w) = Shape.mailed expiresAt o e p w.
Proof.
  intros He Hp Hs.
  destruct (issue_stage ttl o e p w He Hp) as (st & Hw & Hst).
  rewrite Hs in Hst.
  destruct st as [| |exp|exp];
    try (destruct Hst as (_ & [H|[H|H]]); discriminate);
    try (destruct Hst as (_ & _ & _ & _ & H); discriminate);
    try (destruct Hst as (_ & H); discriminate).
  destruct Hst as (_ & _ & Hexp & _).
  exists exp; now split.
Qed.

(** From issue to verification.  When the send function answers that the
    mail was sent and the row written outlives the rows the pair had, a
    complete verify request for the pair made before that row expires, with
    the code mailed, finds that row and passes the hash comparison: it
    succeeds as soon as the Provider steps of the purpose succeed. *)
Theorem issue_then_verify ttl o e p w data expiresAt ov pw s :
  e <> "" -> p <> "" -> pw <> "" ->
  0 <= SendOtp.random o < 2 ^ 53 ->
  fst (Spec.issue ttl o e p w) = EmailSent data ->
  Spec.expiry ttl o = Some expiresAt ->
  (forall r, In r (Db.rows (table w)) -> Spec.of_pair e p r = true ->
             Db.expires_at r < expiresAt) ->
  VerifyOtp.selectError ov = false ->
  VerifyOtp.now ov < expiresAt ->
  Spec.provider_ok ov p s ->
  fst (Spec.verify ov e p (SendOtp.generate_code (SendOtp.random o)) pw
         (snd (Spec.issue ttl o e p w)))
  = Success s.
Proof.
  intros He Hp Hpw Hrandom Hs Hexp Hold Hsel Hnow Hok.
  destruct (issue_mailed ttl o e p w data He Hp Hs) as (exp & Hexp' & ->).
  rewrite Hexp in Hexp'; injection Hexp' as <-.
  apply verify_succeeds
    with (r := Shape.issued_row expiresAt o e p (table w)); try assumption.
  - destruct (generate_code_shape _ Hrandom) as (_ & H4 & _).
    intros Heq; rewrite Heq in H4; discriminate.
  - unfold Spec.found; rewrite Hsel. now apply issued_is_latest.
  - reflexivity.
Qed.

Lemma issue_then_verify_witness :
  fst (Spec.verify (Scenario.verifying 2000 (Data [])) Scenario.alice "signup"
         (SendOtp.generate_code (SendOtp.random (Scenario.sending (Data []))))
         "secret"
         (snd (Spec.issue (Some 10) (Scenario.sending (Data []))
                 Scenario.alice "signup" (Scenario.world_of []))))
  = Success "session-1".
Proof.
  refine (issue_then_verify (Some 10) (Scenario.sending (Data []))
            Scenario.alice "signup" (Scenario.world_of []) "msg-1" 601000
            (Scenario.verifying 2000 (Data [])) "secret" "session-1"
            ltac:(discriminate) ltac:(discriminate) ltac:(discriminate)
            _ ltac:(vm_compute; reflexivity) eq_refl _ eq_refl eq_refl _).
  - split; [discriminate|reflexivity].
  - intros r [].
  - split; reflexivity.
Defined.

(** A newer code supersedes the older ones.  Once the send function has
    written a row that outlives the rows the pair had, a complete verify
    request made before that row expires with any code of another hash, the
    code of an older record that is still active included, is answered
    InvalidCode. *)
Theorem newer_code_supersedes ttl o e p w data expiresAt ov c pw :
  e <> "" -> p <> "" -> c <> "" -> pw <> "" ->
  fst (Spec.issue ttl o e p w) = EmailSent data ->
  Spec.expiry ttl o = Some expiresAt ->
  (forall r, In r (Db.rows (table w)) -> Spec.of_pair e p r = true ->
             Db.expires_at r < expiresAt) ->
  VerifyOtp.selectError ov = false ->
  VerifyOtp.now ov < expiresAt ->
  Crypto.hashString c
  <> Crypto.hashString (SendOtp.generate_code (SendOtp.random o)) ->
  fst (Spec.verify ov e p c pw (snd (Spec.issue ttl o e p w))) = InvalidCode.
Proof.
  intros He Hp Hc Hpw Hs Hexp Hold Hsel Hnow Hh.
  destruct (issue_mailed ttl o e p w data He Hp Hs) as (exp & Hexp' & ->).
  rewrite Hexp in Hexp'; injection Hexp' as <-.
  rewrite (verify_mismatch ov e p c pw _ He Hp Hc Hpw
             (Shape.issued_row expiresAt o e p (table w))); [reflexivity| |exact Hh].
  unfold Spec.found; rewrite Hsel. now apply issued_is_latest.
Qed.

Lemma newer_code_supersedes_witness :
  fst (Spec.verify (Scenario.verifying 2000 (Data [])) Scenario.alice "reset"
         "1234" "secret"
         (snd (Spec.issue (Some 10) (Scenario.sending (Data []))
                 Scenario.alice "reset" (Scenario.one_row "reset"))))
  = InvalidCode.
Proof.
  refine (newer_code_supersedes (Some 10) (Scenario.sending (Data []))
            Scenario.alice "reset" (Scenario.one_row "reset") "msg-1" 601000
            (Scenario.verifying 2000 (Data [])) "1234" "secret"
            ltac:(discriminate) ltac:(discriminate) ltac:(discriminate)
            ltac:(discriminate) ltac:(vm_compute; reflexivity) eq_refl _
            eq_refl eq_refl ltac:(vm_compute; discriminate)).
  intros r [<-|[]] _; vm_compute; reflexivity.
Defined.

End RoundTrip.

(** ** [signin/index.ts] *)

Section SignInFacts.
Import Http Remote Reply.

(** The sign-in function answers 405, 500 or 400 without a remote call to a
    request that is not a POST, does not parse or lacks the e-mail or the
    password; to any other request it makes one call, the sign-in with the
    e-mail and the password of the request, and answers with the session, or
    with the message of the Provider under status 400.  It never touches the
    table. *)
Theorem signin_outcome o req w :
  (Shape.complete_signin req = false /\
   SignIn.handler o req w = (Shape.refusal MissingParameters req, w)) \/
  (Shape.complete_signin req = true /\
   exists pl,
     Shape.posted req = Some pl /\
     SignIn.handler o req w
     = (match SignIn.signIn o with
        | Data session => Success session
        | Failure message => ProviderError message
        end,
        record (SignInWithPassword (email pl) (password pl)) w)).
Proof.
  destruct req as [m [[e p c pw]|]];
    unfold Shape.complete_signin, Shape.posted, Shape.refusal, SignIn.handler;
    cbn [method json email password req_json];
    destruct (String.eqb m "POST") eqn:Hm; cbn [negb];
    try (left; split; reflexivity).
  unfold try_catch, bind, ret, respond, auth_call; cbn [email password].
  destruct (falsy e) eqn:He; [left; split; reflexivity|].
  destruct (falsy pw) eqn:Hpw; [left; split; reflexivity|].
  right; split; [reflexivity|].
  exists (mkPayload e p c pw); split; [reflexivity|].
  cbn [email password orb].
  now destruct (SignIn.signIn o).
Qed.

End SignInFacts.

(** ** The send function: the ways it stops *)

Section IssueStops.
Import Http Remote Reply.

(** A complete request to the send function is answered AlreadyExists exactly
    when the purpose is signup and the Provider lists a user; the listing is
    then the only call made and the table is the one before.  In every other
    case the cleanup and the count are requested. *)
Theorem issue_already_exists_iff ttl o e p w :
  e <> "" -> p <> "" ->
  (fst (Spec.issue ttl o e p w) = AlreadyExists <-> Spec.account_listed o p = true) /\
  (Spec.account_listed o p = true ->
   snd (Spec.issue ttl o e p w) = record (ListUsers e) w) /\
  (Spec.account_listed o p = false ->
   In (OtpDelete e p (Some (SendOtp.now o)))
      (Shape.new_calls w (snd (Spec.issue ttl o e p w))) /\
   In (OtpSelectIds e p (SendOtp.now o))
      (Shape.new_calls w (snd (Spec.issue ttl o e p w)))).
Proof.
  intros He Hp.
  destruct (issue_stage ttl o e p w He Hp) as (st & Hw & Hst).
  rewrite Hw, (new_calls_of _ _ _ (world_at_calls st o e p w)).
  destruct st as [| |exp|exp].
  - destruct Hst as [Hacc Hr]; rewrite Hacc, Hr.
    split; [tauto|]. split; [|discriminate].
    intros _; cbn [Shape.world_at]; unfold Spec.prechecked.
    unfold Spec.account_listed in Hacc.
    destruct (String.eqb p "signup"); [reflexivity|discriminate].
  - destruct Hst as [Hacc Hr]; rewrite Hacc.
    split; [split; [|discriminate]|split; [discriminate|]].
    + intros H; rewrite H in Hr; destruct Hr as [Hr|[Hr|Hr]]; discriminate.
    + intros _; unfold Shape.calls_at; split; apply in_or_app; right; cbn; tauto.
  - destruct Hst as (Hacc & _ & _ & _ & Hr); rewrite Hacc, Hr.
    split; [split; discriminate|split; [discriminate|]].
    intros _; unfold Shape.calls_at; split; apply in_or_app; right; cbn; tauto.
  - destruct Hst as (Hacc & _ & _ & _ & Hr); rewrite Hacc.
    split; [split; [|discriminate]|split; [discriminate|]].
    + intros H; rewrite H in Hr; destruct Hr as [Hr|[Hr|(d & _ & Hr)]]; discriminate.
    + intros _; unfold Shape.calls_at; split; apply in_or_app; right; cbn; tauto.
Qed.

Lemma issue_already_exists_iff_witness :
  snd (Spec.issue (Some 10) (Scenario.sending (Data [Scenario.alice_account]))
         Scenario.alice "signup" (Scenario.three_rows "signup"))
  = record (ListUsers Scenario.alice) (Scenario.three_rows "signup").
Proof.
  exact (proj1 (proj2 (issue_already_exists_iff (Some 10)
                         (Scenario.sending (Data [Scenario.alice_account]))
                         Scenario.alice "signup" (Scenario.three_rows "signup")
                         ltac:(discriminate) ltac:(discriminate)))
           eq_refl).
Defined.

(** Past the count.  For a complete request that passes the Signup
    precondition and the count with fewer than three rows counted and a date
    for [expiresAt]: when the insert fails the answer is Failed to save OTP,
    no row is written and no mail is requested; when it succeeds the row is
    written, the mail is requested, and the row stays whatever the mail
    service does, the answer being the success message when it answers ok
    with a JSON body, Failed to send email when it answers not ok with a JSON
    body, and Internal server error when its body is not JSON or it does not
    answer.  So the answer is Failed to save OTP exactly when the insert
    fails, and Failed to send email exactly when the insert succeeds and the
    mail service answers not ok with a JSON body. *)
Theorem issue_failure_after_count ttl o e p w expiresAt :
  e <> "" -> p <> "" ->
  Spec.account_listed o p = false ->
  SendOtp.countError o = false ->
  (Shape.count e p (SendOtp.now o) (table (Spec.counted_world o e p w)) < 3)%nat ->
  Spec.expiry ttl o = Some expiresAt ->
  (SendOtp.dbError o = true ->
   Spec.issue ttl o e p w
   = (SaveFailed,
      record (Shape.insert_call expiresAt o e p) (Spec.counted_world o e p w)) /\
   table (snd (Spec.issue ttl o e p w)) = table (Spec.counted_world o e p w) /\
   forall target c,
     ~ In (SendMail target c) (Shape.new_calls w (snd (Spec.issue ttl o e p w)))) /\
  (SendOtp.dbError o = false ->
   Spec.issue ttl o e p w
   = (match SendOtp.delivery o with
      | Accepted data => EmailSent data
      | Refused => DeliveryError
      | Unreadable | Unreachable => InternalError
      end,
      Shape.mailed expiresAt o e p w) /\
   In (Shape.issued_row expiresAt o e p (table w))
      (Db.rows (table (snd (Spec.issue ttl o e p w)))) /\
   In (SendMail e (SendOtp.generate_code (SendOtp.random o)))
      (Shape.new_calls w (snd (Spec.issue ttl o e p w)))) /\
  (fst (Spec.issue ttl o e p w) = SaveFailed <-> SendOtp.dbError o = true) /\
  (fst (Spec.issue ttl o e p w) = DeliveryError <->
   SendOtp.dbError o = false /\ SendOtp.delivery o = Refused).
Proof.
  intros He Hp Hacc Hcount Hn Hexp.
  assert (Hn' : (List.length
                   (Spec.counted e p (SendOtp.now o)
                      (table (Spec.cleaned o e p (Spec.prechecked e p w)))) < 3)%nat)
    by exact Hn.
  pose proof (issue_proceeds ttl o e p w He Hp Hacc Hcount Hn') as Hrun.
  cbv zeta in Hrun; rewrite Hexp in Hrun.
  assert (Hmailed : calls (Shape.mailed expiresAt o e p w)
                    = calls w ++ Shape.calls_at (Shape.AtMail expiresAt) o e p)
    by apply (world_at_calls (Shape.AtMail expiresAt)).
  assert (Hfailed : calls (record (Shape.insert_call expiresAt o e p)
                             (Spec.counted_world o e p w))
                    = calls w ++ Shape.calls_at (Shape.AtFailedInsert expiresAt) o e p)
    by apply (world_at_calls (Shape.AtFailedInsert expiresAt)).
  destruct (SendOtp.dbError o) eqn:Hdb; cbv iota in Hrun.
  - fold (Shape.insert_call expiresAt o e p) in Hrun.
    rewrite Hrun; cbn [fst snd].
    split; [|split; [discriminate|split]].
    + intros _. split; [reflexivity|]. split; [reflexivity|].
      intros target c Hin.
      rewrite (new_calls_of _ _ _ Hfailed) in Hin.
      destruct (in_calls_at_mail _ _ _ _ _ _ Hin) as (_ & _ & x & Hx); discriminate.
    + tauto.
    + split; [discriminate|]. intros [H _]; discriminate.
  - assert (Hw : Spec.issue ttl o e p w
                 = (match SendOtp.delivery o with
                    | Accepted data => EmailSent data
                    | Refused => DeliveryError
                    | Unreadable | Unreachable => InternalError
                    end,
                    Shape.mailed expiresAt o e p w))
      by (rewrite Hrun; now destruct (SendOtp.delivery o)).
    rewrite Hw; cbn [fst snd].
    split; [discriminate|split; [|split]].
    + intros _. split; [reflexivity|].
      rewrite (new_calls_of _ _ _ Hmailed).
      unfold Shape.mailed, Shape.stored, Shape.issued_row, record, Db.insert;
        cbn [table Db.rows].
      rewrite counted_world_next_id.
      split; [apply in_or_app; right; now left|].
      unfold Shape.calls_at; apply in_or_app; right; cbn; tauto.
    + destruct (SendOtp.delivery o); split; discriminate.
    + destruct (SendOtp.delivery o); split;
        try discriminate; try (intros [_ H]; discriminate); tauto.
Qed.

Lemma issue_failure_after_count_witness :
  fst (Spec.issue (Some 10)
         (SendOtp.mkOutcomes (Data []) 1000 false false 0 1000 true (Accepted "msg-1"))
         Scenario.alice "reset" (Scenario.world_of []))
  = SaveFailed /\
  fst (Spec.issue (Some 10)
         (SendOtp.mkOutcomes (Data []) 1000 false false 0 1000 false Refused)
         Scenario.alice "reset" (Scenario.world_of []))
  = DeliveryError /\
  fst (Spec.issue (Some 10)
         (SendOtp.mkOutcomes (Data []) 1000 false false 0 1000 false Unreadable)
         Scenario.alice "reset" (Scenario.world_of []))
  = InternalError.
Proof.
  split; [|split].
  - exact (proj2 (proj1 (proj2 (proj2
             (issue_failure_after_count (Some 10)
                (SendOtp.mkOutcomes (Data []) 1000 false false 0 1000 true
                   (Accepted "msg-1"))
                Scenario.alice "reset" (Scenario.world_of []) 601000
                ltac:(discriminate) ltac:(discriminate) eq_refl eq_refl
                ltac:(vm_compute; lia) eq_refl)))) eq_refl).
  - exact (proj2 (proj2 (proj2 (proj2
             (issue_failure_after_count (Some 10)
                (SendOtp.mkOutcomes (Data []) 1000 false false 0 1000 false Refused)
                Scenario.alice "reset" (Scenario.world_of []) 601000
                ltac:(discriminate) ltac:(discriminate) eq_refl eq_refl
                ltac:(vm_compute; lia) eq_refl)))) (conj eq_refl eq_refl)).
  - exact (f_equal fst (proj1 (proj1 (proj2
             (issue_failure_after_count (Some 10)
                (SendOtp.mkOutcomes (Data []) 1000 false false 0 1000 false Unreadable)
                Scenario.alice "reset" (Scenario.world_of []) 601000
                ltac:(discriminate) ltac:(discriminate) eq_refl eq_refl
                ltac:(vm_compute; lia) eq_refl)) eq_refl))).
Defined.

(** With [OTP_EXPIRATION_TIME] not a number, no request gets a code: no row
    is written, no mail is requested, and the answer is never that the mail
    was sent. *)
Theorem issue_without_expiration_time o req w :
  Db.next_id (table (snd (SendOtp.handler None o req w))) = Db.next_id (table w) /\
  Spec.nothing_issued (Shape.new_calls w (snd (SendOtp.handler None o req w))) = true /\
  forall data, fst (SendOtp.handler None o req w) <> EmailSent data.
Proof.
  destruct (send_handler_cases None o req w)
    as [[_ ->]|(_ & pl & _ & He & Hp & ->)].
  - cbn [fst snd]; unfold Shape.new_calls; rewrite skipn_all.
    split; [reflexivity|]. split; [reflexivity|].
    intros data; unfold Shape.refusal.
    destruct (negb _); [discriminate|]. now destruct (json req).
  - destruct (issue_stage None o _ _ w He Hp) as (st & Hw & Hst).
    rewrite Hw, (new_calls_of _ _ _ (world_at_calls st o _ _ w)), world_at_table.
    destruct st as [| |exp|exp];
      try (destruct Hst as (_ & _ & H & _); discriminate).
    + destruct Hst as [_ ->].
      split; [reflexivity|]. split; [|discriminate].
      unfold Shape.calls_at; now destruct (String.eqb (purpose pl) "signup").
    + destruct Hst as [_ Hr].
      split; [apply counted_world_next_id|]. split.
      * unfold Shape.calls_at; now destruct (String.eqb (purpose pl) "signup").
      * intros data H; rewrite H in Hr; destruct Hr as [Hr|[Hr|Hr]]; discriminate.
Qed.

End IssueStops.
